(** * QuranApp: the playback / navigation sequencer of [index.tsx]

    The source file holds two near-duplicate listings of the same screen.
    Module [V1] embeds the first listing (lines 1-239: no previous/next
    chapter, [playAudio] unloads without stopping), module [V2] the second
    (lines 241-630).  Both share the data model, the React state and the
    model of the outside world (network, expo-av, console) given first.

    React semantics kept by the embedding: a function declared inside
    [AppProvider] closes over the state values of the render that created
    it.  Every such function therefore takes the render snapshot
    [r : AppState] it was created in, and reads [sound] and [selectedSurah]
    from [r]; the setters write the pending state [st] of the world, which
    only the next render exposes.  A handler invoked by the user runs with
    the committed render, [r = st w]. *)

From Stdlib Require Import ZArith List String Bool Lia DecimalString.
From Stdlib Require DecimalZ.
Import ListNotations.
Local Open Scope string_scope.
Local Open Scope list_scope.
Local Open Scope Z_scope.

(** ** Data model (the three interfaces of the source) *)

Module Surah.
Record t : Type := mk {
  number : Z;
  name : string;
  englishName : string;
  englishNameTranslation : string;
  numberOfAyahs : Z;
  revelationType : string }.
End Surah.

Module Ayah.
Record t : Type := mk {
  number : Z;
  text : string;
  numberInSurah : Z }.
End Ayah.

Module SurahData.
Record t : Type := mk {
  number : Z;
  name : string;
  englishName : string;
  englishNameTranslation : string;
  numberOfAyahs : Z;
  revelationType : string;
  ayahs : list Ayah.t }.
End SurahData.

(** An [Audio.Sound] object, identified by the order of its creation. *)
Definition Sound : Type := nat.
Bind Scope nat_scope with Sound.

(** The [useState] cells of [AppProvider].  ([currentTime] of the first
    listing is never written and never read by the logic; it is left out.) *)
Record AppState : Type := mkState {
  showSurahs : bool;
  surahs : list Surah.t;
  selectedSurah : option SurahData.t;
  loading : bool;
  selectedAyah : option Ayah.t;
  sound : option Sound }.

Definition initialState : AppState :=
  mkState false [] None false None None.

(** ** The outside world *)

(** What a [fetch] followed by [response.json()] can give. *)
Inductive Response (D : Type) : Type :=
| FetchRejects
| JsonRejects
| JsonNull
| JsonObject (code : Z) (data : D).
Arguments FetchRejects {D}.
Arguments JsonRejects {D}.
Arguments JsonNull {D}.
Arguments JsonObject {D} code data.

(** The answers of the remote API and of the playback library; the code
    under study has no control over them. *)
Record Env : Type := mkEnv {
  fetch_surahs : string -> Response (list Surah.t);
  fetch_ayahs : string -> Response SurahData.t;
  stop_ok : Sound -> bool;
  unload_ok : Sound -> bool;
  create_ok : string -> bool;
  play_ok : Sound -> bool }.

Inductive Event : Type :=
| SetSurahs (l : list Surah.t)
| SetSelectedSurah (s : option SurahData.t)
| SetLoading (b : bool)
| SetSelectedAyah (a : option Ayah.t)
| SetSound (s : option Sound)
| Fetch (url : string)
| StopAsync (s : Sound)
| UnloadAsync (s : Sound)
| CreateAsync (uri : string) (shouldPlay : bool)
| PlayAsync (s : Sound)
| SetOnPlaybackStatusUpdate (s : Sound)
| ConsoleError (msg : string).

(** What a status callback closes over: the render it was created in and
    the [ayah] argument of the [playAudio] call that registered it. *)
Definition Closure : Type := (AppState * Ayah.t)%type.

Record World : Type := mkWorld {
  st : AppState;
  loaded : list (Sound * string);
  fresh : Sound;
  callbacks : list (Sound * Closure);
  log : list Event }.

Definition initialWorld : World := mkWorld initialState [] 0%nat [] [].

Inductive AVPlaybackStatus : Type :=
| StatusError
| StatusSuccess (finished : bool).

Definition isLoaded (s : AVPlaybackStatus) : bool :=
  match s with StatusSuccess _ => true | StatusError => false end.

Definition didJustFinish (s : AVPlaybackStatus) : bool :=
  match s with StatusSuccess b => b | StatusError => false end.

(** ** A state-and-exception monad for the [async] bodies

    An [await] that rejects is a [Throw]; every operation is run to its end
    without interleaving. *)

Inductive Err : Type := NetworkError | SyntaxError | TypeError | PlaybackError.

Inductive Res (A : Type) : Type :=
| Ok (a : A)
| Throw (e : Err).
Arguments Ok {A} a.
Arguments Throw {A} e.

Definition M (A : Type) : Type := World -> Res A * World.

Definition ret {A} (a : A) : M A := fun w => (Ok a, w).

Definition throw {A} (e : Err) : M A := fun w => (Throw e, w).

Definition bind {A B} (m : M A) (k : A -> M B) : M B :=
  fun w => match m w with
           | (Ok a, w') => k a w'
           | (Throw e, w') => (Throw e, w')
           end.

Notation "x <- m ;; k" := (bind m (fun x => k))
  (at level 61, m at next level, right associativity).
Notation "m ;; k" := (bind m (fun _ => k))
  (at level 61, right associativity).

Definition try_catch {A} (body : M A) (handler : Err -> M A) : M A :=
  fun w => match body w with
           | (Ok a, w') => (Ok a, w')
           | (Throw e, w') => handler e w'
           end.

(** [try { body } catch (e) { handler } finally { final }] *)
Definition try_catch_finally {A} (body : M A) (handler : Err -> M A)
    (final : M unit) : M A :=
  fun w => match try_catch body handler w with
           | (res, w') =>
               match final w' with
               | (Ok _, w'') => (res, w'')
               | (Throw e, w'') => (Throw e, w'')
               end
           end.

Definition exec {A} (m : M A) (w : World) : World := snd (m w).
Definition result {A} (m : M A) (w : World) : Res A := fst (m w).

(** *** Primitive effects *)

Definition emit (e : Event) : M unit :=
  fun w => (Ok tt, mkWorld (st w) (loaded w) (fresh w) (callbacks w) (log w ++ [e])).

Definition modify (f : AppState -> AppState) : M unit :=
  fun w => (Ok tt, mkWorld (f (st w)) (loaded w) (fresh w) (callbacks w) (log w)).

Definition setSurahs (l : list Surah.t) : M unit :=
  emit (SetSurahs l) ;;
  modify (fun s => mkState (showSurahs s) l (selectedSurah s) (loading s)
                           (selectedAyah s) (sound s)).

Definition setSelectedSurah (d : option SurahData.t) : M unit :=
  emit (SetSelectedSurah d) ;;
  modify (fun s => mkState (showSurahs s) (surahs s) d (loading s)
                           (selectedAyah s) (sound s)).

Definition setLoading (b : bool) : M unit :=
  emit (SetLoading b) ;;
  modify (fun s => mkState (showSurahs s) (surahs s) (selectedSurah s) b
                           (selectedAyah s) (sound s)).

Definition setSelectedAyah (a : option Ayah.t) : M unit :=
  emit (SetSelectedAyah a) ;;
  modify (fun s => mkState (showSurahs s) (surahs s) (selectedSurah s) (loading s)
                           a (sound s)).

Definition setSound (h : option Sound) : M unit :=
  emit (SetSound h) ;;
  modify (fun s => mkState (showSurahs s) (surahs s) (selectedSurah s) (loading s)
                           (selectedAyah s) h).

Definition consoleError (msg : string) : M unit := emit (ConsoleError msg).

(** [await fetch(url)] then [await response.json()]: [None] is a body that
    parsed to [null]. *)
Definition fetchJson {D} (url : string) (resp : Response D) : M (option (Z * D)) :=
  emit (Fetch url) ;;
  match resp with
  | FetchRejects => throw NetworkError
  | JsonRejects => throw SyntaxError
  | JsonNull => ret None
  | JsonObject code data => ret (Some (code, data))
  end.

Section Audio.
Variable E : Env.

Definition stopAsync (s : Sound) : M unit :=
  emit (StopAsync s) ;;
  if stop_ok E s then ret tt else throw PlaybackError.

Definition unloadAsync (s : Sound) : M unit :=
  emit (UnloadAsync s) ;;
  if unload_ok E s
  then fun w => (Ok tt, mkWorld (st w)
                          (filter (fun p => negb (Nat.eqb (fst p) s)) (loaded w))
                          (fresh w) (callbacks w) (log w))
  else throw PlaybackError.

Definition createAsync (uri : string) (shouldPlay : bool) : M Sound :=
  emit (CreateAsync uri shouldPlay) ;;
  if create_ok E uri
  then fun w => (Ok (fresh w), mkWorld (st w) (loaded w ++ [(fresh w, uri)])
                                 (S (fresh w)) (callbacks w) (log w))
  else throw PlaybackError.

Definition playAsync (s : Sound) : M unit :=
  emit (PlayAsync s) ;;
  if play_ok E s then ret tt else throw PlaybackError.

End Audio.

Definition setOnPlaybackStatusUpdate (s : Sound) (c : Closure) : M unit :=
  emit (SetOnPlaybackStatusUpdate s) ;;
  fun w => (Ok tt, mkWorld (st w) (loaded w) (fresh w) ((s, c) :: callbacks w) (log w)).

(** *** JavaScript helpers *)

(** [`${n}`] for an integer [n]. *)
Definition toString (n : Z) : string := NilZero.string_of_int (Z.to_int n).

Fixpoint findIndexFrom {A} (p : A -> bool) (l : list A) (i : Z) : Z :=
  match l with
  | [] => -1
  | x :: rest => if p x then i else findIndexFrom p rest (i + 1)
  end.

(** [Array.prototype.findIndex]: [-1] when no element passes. *)
Definition findIndex {A} (p : A -> bool) (l : list A) : Z := findIndexFrom p l 0.

(** [l[i]]: [None] is [undefined]. *)
Definition at_index {A} (l : list A) (i : Z) : option A :=
  if i <? 0 then None else nth_error l (Z.to_nat i).

Fixpoint lookup_callback (s : Sound) (l : list (Sound * Closure)) : option Closure :=
  match l with
  | [] => None
  | (s', c) :: rest => if Nat.eqb s' s then Some c else lookup_callback s rest
  end.

Definition surahsUrl : string := "https://api.alquran.cloud/v1/surah".

Definition ayahsUrl (surahNumber : Z) : string :=
  ("https://api.alquran.cloud/v1/surah/" ++ toString surahNumber ++ "/ar.alafasy")%string.

Definition audioUri (number : Z) : string :=
  ("https://cdn.islamic.network/quran/audio/128/ar.alafasy/" ++ toString number ++ ".mp3")%string.

(** ** First listing (lines 1-239) *)

Module V1.
Section Provider.
Variable E : Env.

Definition fetchSurahs : M unit :=
  setLoading true ;;
  try_catch
    (json <- fetchJson surahsUrl (fetch_surahs E surahsUrl) ;;
     match json with
     | None => throw TypeError
     | Some (code, data) => if code =? 200 then setSurahs data else ret tt
     end)
    (fun _ => consoleError "Error fetching Surahs:") ;;
  setLoading false.

Definition fetchAyahs (surahNumber : Z) : M unit :=
  setLoading true ;;
  try_catch
    (json <- fetchJson (ayahsUrl surahNumber) (fetch_ayahs E (ayahsUrl surahNumber)) ;;
     match json with
     | None => throw TypeError
     | Some (code, data) => if code =? 200 then setSelectedSurah (Some data) else ret tt
     end)
    (fun _ => consoleError "Error fetching Ayahs:") ;;
  setLoading false.

Definition playAudio (r : AppState) (ayah : Ayah.t) : M unit :=
  match sound r with
  | Some s => unloadAsync E s
  | None => ret tt
  end ;;
  try_catch
    (newSound <- createAsync E (audioUri (Ayah.number ayah)) false ;;
     setSound (Some newSound) ;;
     setSelectedAyah (Some ayah) ;;
     playAsync E newSound ;;
     setOnPlaybackStatusUpdate newSound (r, ayah))
    (fun _ => consoleError "Error playing audio:").

(** The callback given to [setOnPlaybackStatusUpdate] by [playAudio r ayah]. *)
Definition onPlaybackStatusUpdate (r : AppState) (ayah : Ayah.t)
    (status : AVPlaybackStatus) : M unit :=
  if didJustFinish status then
    match selectedSurah r with
    | Some sd =>
        let currentIndex :=
          findIndex (fun a => Ayah.number a =? Ayah.number ayah) (SurahData.ayahs sd) in
        match at_index (SurahData.ayahs sd) (currentIndex + 1) with
        | Some nextAyah => playAudio r nextAyah
        | None => ret tt
        end
    | None => ret tt
    end
  else ret tt.

Definition handleBackPress (r : AppState) : M unit :=
  match sound r with
  | Some s => stopAsync E s ;; unloadAsync E s ;; setSound None
  | None => ret tt
  end ;;
  setSelectedSurah None.

(** The playback library reporting [status] for sound [s]. *)
Definition statusUpdate (s : Sound) (status : AVPlaybackStatus) : M unit :=
  fun w => match lookup_callback s (callbacks w) with
           | Some (r, ayah) => onPlaybackStatusUpdate r ayah status w
           | None => (Ok tt, w)
           end.

(** [onPress] of a verse row and of the back button, in the committed render. *)
Definition pressAyah (ayah : Ayah.t) : M unit := fun w => playAudio (st w) ayah w.
Definition pressBack : M unit := fun w => handleBackPress (st w) w.

End Provider.
End V1.

(** ** Second listing (lines 241-630) *)

Module V2.
Section Provider.
Variable E : Env.

Definition fetchSurahs : M unit :=
  setLoading true ;;
  try_catch_finally
    (json <- fetchJson surahsUrl (fetch_surahs E surahsUrl) ;;
     match json with
     | None => throw TypeError
     | Some (code, data) =>
         if code =? 200 then setSurahs data
         else consoleError "Failed to fetch surahs:"
     end)
    (fun _ => consoleError "Error fetching Surahs:")
    (setLoading false).

Definition fetchAyahs (surahNumber : Z) : M unit :=
  setLoading true ;;
  try_catch_finally
    (json <- fetchJson (ayahsUrl surahNumber) (fetch_ayahs E (ayahsUrl surahNumber)) ;;
     match json with
     | None => throw TypeError
     | Some (code, data) =>
         if code =? 200 then setSelectedSurah (Some data)
         else consoleError "Failed to fetch ayahs:"
     end)
    (fun _ => consoleError "Error fetching Ayahs:")
    (setLoading false).

Definition playAudio (r : AppState) (ayah : Ayah.t) : M unit :=
  try_catch
    (match sound r with
     | Some s => stopAsync E s ;; unloadAsync E s
     | None => ret tt
     end ;;
     newSound <- createAsync E (audioUri (Ayah.number ayah)) true ;;
     setSound (Some newSound) ;;
     setSelectedAyah (Some ayah) ;;
     setOnPlaybackStatusUpdate newSound (r, ayah))
    (fun _ => consoleError "Error playing audio:").

(** The callback given to [setOnPlaybackStatusUpdate] by [playAudio r ayah]. *)
Definition onPlaybackStatusUpdate (r : AppState) (ayah : Ayah.t)
    (status : AVPlaybackStatus) : M unit :=
  if isLoaded status && didJustFinish status then
    match selectedSurah r with
    | Some sd =>
        let currentIndex :=
          findIndex (fun a => Ayah.number a =? Ayah.number ayah) (SurahData.ayahs sd) in
        match at_index (SurahData.ayahs sd) (currentIndex + 1) with
        | Some nextAyah => playAudio r nextAyah
        | None => ret tt
        end
    | None => ret tt
    end
  else ret tt.

Definition handleBackPress (r : AppState) : M unit :=
  try_catch
    (match sound r with
     | Some s => stopAsync E s ;; unloadAsync E s ;; setSound None
     | None => ret tt
     end ;;
     setSelectedAyah None ;;
     setSelectedSurah None)
    (fun _ => consoleError "Error stopping audio:").

(** [selectedSurah?.number] as a condition: a chapter is held and its
    number is not [0]. *)
Definition fetchNextSurah (r : AppState) : M unit :=
  match selectedSurah r with
  | Some sd =>
      if SurahData.number sd =? 0 then ret tt
      else
        let nextSurahNumber :=
          if SurahData.number sd =? 114 then 1 else SurahData.number sd + 1 in
        fetchAyahs nextSurahNumber
  | None => ret tt
  end.

Definition fetchPreviousSurah (r : AppState) : M unit :=
  match selectedSurah r with
  | Some sd =>
      if negb (SurahData.number sd =? 0) && (1 <? SurahData.number sd)
      then fetchAyahs (SurahData.number sd - 1)
      else ret tt
  | None => ret tt
  end.

(** The playback library reporting [status] for sound [s]. *)
Definition statusUpdate (s : Sound) (status : AVPlaybackStatus) : M unit :=
  fun w => match lookup_callback s (callbacks w) with
           | Some (r, ayah) => onPlaybackStatusUpdate r ayah status w
           | None => (Ok tt, w)
           end.

(** The handlers the screen wires to gestures, in the committed render:
    [onPress] of a verse row and of the back button, [onEndReached] and
    [onRefresh] of the verse list. *)
Definition pressAyah (ayah : Ayah.t) : M unit := fun w => playAudio (st w) ayah w.
Definition pressBack : M unit := fun w => handleBackPress (st w) w.
Definition onEndReached : M unit := fun w => fetchNextSurah (st w) w.
Definition onRefresh : M unit := fun w => fetchPreviousSurah (st w) w.

End Provider.
End V2.

(** ** Vocabulary of the statements *)

(** The stop and unload calls on the sound captured by render [r] resolve. *)
Definition controls_ok (E : Env) (r : AppState) : Prop :=
  forall s, sound r = Some s -> stop_ok E s = true /\ unload_ok E s = true.

(** The loaded players once the sound captured by [r] is unloaded. *)
Definition unload_from (r : AppState) (l : list (Sound * string)) : list (Sound * string) :=
  match sound r with
  | Some s => filter (fun p => negb (Nat.eqb (fst p) s)) l
  | None => l
  end.

(** A lookup that did not deliver a body with [code === 200]. *)
Definition failed {D} (resp : Response D) : Prop :=
  match resp with
  | JsonObject code _ => code <> 200
  | _ => True
  end.

(** The two parts of the audio address that the literal in [playAudio]
    spells out. *)
Definition baseAudioUrl : string := "https://cdn.islamic.network/quran/audio/128".
Definition reciterId : string := "ar.alafasy".

(** ** Sample data: chapters 1, 2 and 114 (chapter 2 cut to three verses) *)

Definition ayah (number numberInSurah : Z) : Ayah.t := Ayah.mk number "" numberInSurah.

Definition alFaatiha : SurahData.t :=
  SurahData.mk 1 "" "Al-Faatiha" "The Opening" 7 "Meccan"
    [ayah 1 1; ayah 2 2; ayah 3 3; ayah 4 4; ayah 5 5; ayah 6 6; ayah 7 7].

Definition alBaqara : SurahData.t :=
  SurahData.mk 2 "" "Al-Baqara" "The Cow" 286 "Medinan"
    [ayah 8 1; ayah 9 2; ayah 10 3].

Definition anNaas : SurahData.t :=
  SurahData.mk 114 "" "An-Naas" "Mankind" 6 "Meccan"
    [ayah 6231 1; ayah 6232 2; ayah 6233 3; ayah 6234 4; ayah 6235 5; ayah 6236 6].

(** An API that knows these three chapters and a playback library whose
    calls all resolve. *)
Definition sampleEnv : Env :=
  mkEnv (fun _ => JsonObject 200 [])
        (fun url =>
           if String.eqb url (ayahsUrl 1) then JsonObject 200 alFaatiha
           else if String.eqb url (ayahsUrl 2) then JsonObject 200 alBaqara
           else if String.eqb url (ayahsUrl 114) then JsonObject 200 anNaas
           else FetchRejects)
        (fun _ => true) (fun _ => true) (fun _ => true) (fun _ => true).

(** The same playback library behind an API that is down. *)
Definition offlineEnv : Env :=
  mkEnv (fun _ => FetchRejects) (fun _ => FetchRejects)
        (fun _ => true) (fun _ => true) (fun _ => true) (fun _ => true).

(** The screen right after chapter [sd] was opened: nothing played yet. *)
Definition reading (sd : SurahData.t) : World :=
  mkWorld (mkState true [] (Some sd) false None None) [] 0%nat [] [].

(** The finished signal of the playback library. *)
Definition finishedStatus : AVPlaybackStatus := StatusSuccess true.

(** The events a run added to the log of [w]. *)
Definition emitted {A} (m : M A) (w : World) : list Event :=
  skipn (List.length (log w)) (log (exec m w)).

(** A run brackets its work between [setLoading(true)] and
    [setLoading(false)], writes the flag nowhere else, ends with the flag
    down and does not reject. *)
Definition toggles_loading (m : M unit) (w : World) : Prop :=
  (exists mid, emitted m w = SetLoading true :: mid ++ [SetLoading false] /\
               forall b, ~ In (SetLoading b) mid) /\
  loading (st (exec m w)) = false /\
  result m w = Ok tt.

(** The state with the loading flag down. *)
Definition idle (s : AppState) : AppState :=
  mkState (showSurahs s) (surahs s) (selectedSurah s) false (selectedAyah s) (sound s).

(** *** Sessions on the sample data *)

(** Second listing: chapter 1 is open and its first verse is tapped. *)
Definition playingFirst : World :=
  exec (V2.pressAyah sampleEnv (ayah 1 1)) (reading alFaatiha).

(** ... then the verse list is scrolled to its end, which loads chapter 2
    while sound [0] keeps playing. *)
Definition scrolledOn : World := exec (V2.onEndReached sampleEnv) playingFirst.

(** First listing: chapter 1 is open and its first verse is tapped. *)
Definition playingFirstV1 : World :=
  exec (V1.pressAyah sampleEnv (ayah 1 1)) (reading alFaatiha).

(** ** The screen ([QuranAppContent]) *)

(** One row of the verse list: its [keyExtractor] key, the verse, and
    whether [styles.highlightAyah] is applied to it. *)
Record Row : Type := mkRow {
  rowKey : string;
  rowAyah : Ayah.t;
  highlighted : bool }.

(** What the screen shows for a state: the [Read Quran] button, the
    activity indicator, the chapter list and the verse list. *)
Record Screen : Type := mkScreen {
  homeButton : bool;
  activityIndicator : bool;
  surahList : option (list Surah.t);
  ayahList : option (list Row) }.

(** [selectedAyah?.number === item.number] *)
Definition isHighlighted (cursor : option Ayah.t) (item : Ayah.t) : bool :=
  match cursor with
  | Some a => Ayah.number a =? Ayah.number item
  | None => false
  end.

Definition ayahRows (cursor : option Ayah.t) (sd : SurahData.t) : list Row :=
  map (fun item => mkRow (toString (Ayah.number item)) item (isHighlighted cursor item))
      (SurahData.ayahs sd).

Module V1UI.

(** Lines 142-193. *)
Definition QuranAppContent (s : AppState) : Screen :=
  mkScreen
    (negb (showSurahs s))
    (loading s)
    (match selectedSurah s with
     | None => if showSurahs s then Some (surahs s) else None
     | Some _ => None
     end)
    (match selectedSurah s with
     | Some sd => Some (ayahRows (selectedAyah s) sd)
     | None => None
     end).

(** [onPress] of a chapter row. *)
Definition pressSurah (E : Env) (item : Surah.t) : M unit :=
  V1.fetchAyahs E (Surah.number item).

End V1UI.

Module V2UI.

(** Lines 463-558. *)
Definition QuranAppContent (s : AppState) : Screen :=
  mkScreen
    (match selectedSurah s with
     | None => negb (showSurahs s)
     | Some _ => false
     end)
    (loading s)
    (match selectedSurah s with
     | None => if showSurahs s && negb (loading s) then Some (surahs s) else None
     | Some _ => None
     end)
    (match selectedSurah s with
     | Some sd => if negb (loading s) then Some (ayahRows (selectedAyah s) sd) else None
     | None => None
     end).

(** [onPress] of a chapter row. *)
Definition pressSurah (E : Env) (item : Surah.t) : M unit :=
  V2.fetchAyahs E (Surah.number item).

End V2UI.

(** ** Sequences of events *)

(** [k] occurrences of the same event, each run to its end before the next
    arrives. *)
Definition times (k : nat) (m : M unit) (w : World) : World :=
  Nat.iter k (exec m) w.

(** The sound in the slot plays to its end (second listing). *)
Definition finishCurrent (E : Env) : M unit :=
  fun w => match sound (st w) with
           | Some s => V2.statusUpdate E s finishedStatus w
           | None => (Ok tt, w)
           end.

(** The API answers the request for chapter [n] with a chapter numbered [n]. *)
Definition serves (E : Env) (n : Z) : Prop :=
  exists d, fetch_ayahs E (ayahsUrl n) = JsonObject 200 d /\ SurahData.number d = n.

Definition faithful (E : Env) : Prop := forall n, 1 <= n <= 114 -> serves E n.

(** A chapter that has only its number. *)
Definition bareSurah (n : Z) : SurahData.t := SurahData.mk n "" "" "" 0 "" [].

(** An API that answers every chapter request in [1,114] with the bare
    chapter of that number, and a playback library whose calls resolve. *)
Definition fullEnv : Env :=
  mkEnv (fun _ => JsonObject 200 [])
        (fun url =>
           match find (fun n => String.eqb url (ayahsUrl n))
                      (map Z.of_nat (seq 1 114)) with
           | Some n => JsonObject 200 (bareSurah n)
           | None => JsonObject 404 (bareSurah 0)
           end)
        (fun _ => true) (fun _ => true) (fun _ => true) (fun _ => true).

(** A playback library that cannot create sounds, and one that cannot stop
    them. *)
Definition noCreateEnv : Env :=
  mkEnv (fun _ => FetchRejects) (fun _ => FetchRejects)
        (fun _ => true) (fun _ => true) (fun _ => false) (fun _ => true).

Definition noStopEnv : Env :=
  mkEnv (fun _ => FetchRejects) (fun _ => FetchRejects)
        (fun _ => false) (fun _ => true) (fun _ => true) (fun _ => true).

Definition noUnloadEnv : Env :=
  mkEnv (fun _ => FetchRejects) (fun _ => FetchRejects)
        (fun _ => true) (fun _ => false) (fun _ => true) (fun _ => true).

(** A run that leaves the cursor, the slot, the loaded players and the
    registered callbacks as they were. *)
Definition keeps_playback (m : M unit) (w : World) : Prop :=
  selectedAyah (st (exec m w)) = selectedAyah (st w) /\
  sound (st (exec m w)) = sound (st w) /\
  loaded (exec m w) = loaded w /\
  callbacks (exec m w) = callbacks w.

(** In [w] the sound [s] in the slot was started for [v], the verse at
    position [i] of [sd], by a [playAudio] of render [r]; it is the latest
    sound created and [v] is the cursor. *)
Definition playing_at (r : AppState) (sd : SurahData.t) (i : nat) (v : Ayah.t)
    (s : Sound) (w : World) : Prop :=
  nth_error (SurahData.ayahs sd) i = Some v /\
  sound (st w) = Some s /\
  lookup_callback s (callbacks w) = Some (r, v) /\
  selectedAyah (st w) = Some v /\
  fresh w = S s.

(** ** Sessions of the second listing *)

(** What can happen to the mounted screen: the [fetchSurahs()] of the mount
    effect, a tap on a chapter row, on a verse row or on Back, the two list
    gestures, and a status report of the playback library for a sound. *)
Inductive Input : Type :=
| LoadSurahs
| TapSurah (item : Surah.t)
| TapAyah (item : Ayah.t)
| TapBack
| EndReached
| Refresh
| StatusReport (s : Sound) (status : AVPlaybackStatus).

Definition dispatch (E : Env) (i : Input) : M unit :=
  match i with
  | LoadSurahs => V2.fetchSurahs E
  | TapSurah item => V2UI.pressSurah E item
  | TapAyah item => V2.pressAyah E item
  | TapBack => V2.pressBack E
  | EndReached => V2.onEndReached E
  | Refresh => V2.onRefresh E
  | StatusReport s status => V2.statusUpdate E s status
  end.

(** The inputs of a session, each handled to its end in turn. *)
Definition session (E : Env) (inputs : list Input) (w : World) : World :=
  fold_left (fun w i => exec (dispatch E i) w) inputs w.

(** What every session keeps: a verse is the cursor exactly when a sound is
    in the slot, and that sound is the most recently created one. *)
Definition cursor_follows_slot (w : World) : Prop :=
  (selectedAyah (st w) = None <-> sound (st w) = None) /\
  (forall s, sound (st w) = Some s -> fresh w = S s).

(** * Properties *)

Arguments ayahsUrl : simpl never.
Arguments audioUri : simpl never.
Arguments surahsUrl : simpl never.

(** Unfolds one run of an [async] body down to the answers of [Env]. *)
Ltac run :=
  cbv beta delta
    [exec result bind ret throw try_catch try_catch_finally emit modify
     setSurahs setSelectedSurah setLoading setSelectedAyah setSound consoleError
     fetchJson stopAsync unloadAsync createAsync playAsync setOnPlaybackStatusUpdate];
  cbn.

(** ** Chapter navigation *)

Section Navigation.
Variable E : Env.

Lemma next_ordinal (n : Z) :
  1 <= n <= 114 -> (if n =? 114 then 1 else n + 1) = n mod 114 + 1.
Proof.
  intros Hn. destruct (Z.eqb_spec n 114) as [->|Hne].
  - reflexivity.
  - rewrite Z.mod_small by lia. reflexivity.
Qed.

Lemma fetchAyahs_ok (n : Z) (d : SurahData.t) (w : World) :
  fetch_ayahs E (ayahsUrl n) = JsonObject 200 d ->
  V2.fetchAyahs E n w =
  (Ok tt,
   mkWorld (mkState (showSurahs (st w)) (surahs (st w)) (Some d) false
                    (selectedAyah (st w)) (sound (st w)))
           (loaded w) (fresh w) (callbacks w)
           (log w ++ [SetLoading true; Fetch (ayahsUrl n);
                      SetSelectedSurah (Some d); SetLoading false])).
Proof.
  intros Hresp. unfold V2.fetchAyahs. rewrite Hresp. run.
  now rewrite <- !app_assoc.
Qed.

Lemma fetchAyahs_requests (n : Z) (w : World) :
  In (Fetch (ayahsUrl n)) (log (exec (V2.fetchAyahs E n) w)).
Proof.
  unfold V2.fetchAyahs.
  destruct (fetch_ayahs E (ayahsUrl n)) as [| | |code d]; run;
    try destruct (code =? 200); run;
    rewrite <- !app_assoc; apply in_or_app; right; simpl; auto.
Qed.

End Navigation.

(** ** Looking up the verse that finished *)

Section FindIndex.

Lemma findIndexFrom_found (v : Ayah.t) (l : list Ayah.t) :
  forall (i : nat) (k : Z),
    NoDup (map Ayah.number l) ->
    nth_error l i = Some v ->
    findIndexFrom (fun a => Ayah.number a =? Ayah.number v) l k = k + Z.of_nat i.
Proof.
  induction l as [|a l IH]; intros i k Hnd Hi.
  - destruct i; discriminate.
  - inversion Hnd as [|n ns Hnotin Hnd']; subst. destruct i as [|i]; cbn in *.
    + injection Hi as ->. rewrite Z.eqb_refl. lia.
    + destruct (Z.eqb_spec (Ayah.number a) (Ayah.number v)) as [Heq|_].
      * exfalso. apply Hnotin. rewrite Heq.
        apply in_map, (nth_error_In _ _ Hi).
      * rewrite (IH i (k + 1) Hnd' Hi). lia.
Qed.

Lemma findIndexFrom_absent (n : Z) (l : list Ayah.t) :
  forall k : Z,
    ~ In n (map Ayah.number l) ->
    findIndexFrom (fun a => Ayah.number a =? n) l k = -1.
Proof.
  induction l as [|a l IH]; intros k Hnotin; cbn in *.
  - reflexivity.
  - destruct (Z.eqb_spec (Ayah.number a) n) as [Heq|_].
    + exfalso. auto.
    + apply IH. auto.
Qed.

Lemma at_index_succ {A} (l : list A) (i : nat) :
  at_index l (Z.of_nat i + 1) = nth_error l (S i).
Proof.
  unfold at_index. destruct (Z.ltb_spec (Z.of_nat i + 1) 0) as [Hlt|_]; [lia|].
  replace (Z.to_nat (Z.of_nat i + 1)) with (S i) by lia. reflexivity.
Qed.

Lemma nth_error_last_none {A} (l : list A) (i : nat) :
  S i = List.length l -> nth_error l (S i) = None.
Proof. intros H. apply nth_error_None. lia. Qed.

End FindIndex.

(** ** What one [playAudio] does when the playback library cooperates *)

Section Play.
Variable E : Env.

Lemma V2_playAudio_ok (r : AppState) (a : Ayah.t) (w : World) :
  controls_ok E r ->
  create_ok E (audioUri (Ayah.number a)) = true ->
  V2.playAudio E r a w =
  (Ok tt,
   mkWorld (mkState (showSurahs (st w)) (surahs (st w)) (selectedSurah (st w))
                    (loading (st w)) (Some a) (Some (fresh w)))
           (unload_from r (loaded w) ++ [(fresh w, audioUri (Ayah.number a))])
           (S (fresh w))
           ((fresh w, (r, a)) :: callbacks w)
           (log w ++
            match sound r with
            | Some s => [StopAsync s; UnloadAsync s]
            | None => []
            end ++
            [CreateAsync (audioUri (Ayah.number a)) true; SetSound (Some (fresh w));
             SetSelectedAyah (Some a); SetOnPlaybackStatusUpdate (fresh w)])).
Proof.
  intros Hctl Hcreate. unfold V2.playAudio, unload_from.
  destruct (sound r) as [s|] eqn:Hs.
  - destruct (Hctl s Hs) as [Hstop Hunl]. run.
    rewrite Hstop. cbn. rewrite Hunl. cbn. rewrite Hcreate. cbn.
    now rewrite <- !app_assoc.
  - run. rewrite Hcreate. cbn. now rewrite <- !app_assoc.
Qed.

Lemma V1_playAudio_ok (r : AppState) (a : Ayah.t) (w : World) :
  (forall s, sound r = Some s -> unload_ok E s = true) ->
  create_ok E (audioUri (Ayah.number a)) = true ->
  let w' := exec (V1.playAudio E r a) w in
  result (V1.playAudio E r a) w = Ok tt /\
  selectedAyah (st w') = Some a /\
  sound (st w') = Some (fresh w) /\
  loaded w' = unload_from r (loaded w) ++ [(fresh w, audioUri (Ayah.number a))].
Proof.
  intros Hunl Hcreate. unfold V1.playAudio, unload_from.
  destruct (sound r) as [s|] eqn:Hs.
  - run. rewrite (Hunl s eq_refl). cbn. rewrite Hcreate. cbn.
    destruct (play_ok E (fresh w)); cbn; auto.
  - run. rewrite Hcreate. cbn.
    destruct (play_ok E (fresh w)); cbn; auto.
Qed.

End Play.

Lemma emitted_app {A} (m : M A) (w : World) (tr : list Event) :
  log (exec m w) = log w ++ tr -> emitted m w = tr.
Proof.
  intros H. unfold emitted. rewrite H, skipn_app, skipn_all, Nat.sub_diag.
  reflexivity.
Qed.

(** C2.  From a held chapter with ordinal [n] in [1,114], [fetchNextSurah]
    is [fetchAyahs] of [(n mod 114) + 1]: it requests that chapter and, when
    the API answers with code 200, the answer becomes the loaded chapter.
    From 114 the chapter requested is 1. *)
Theorem next_chapter_wraps (E : Env) (r : AppState) (sd : SurahData.t) (w : World) :
  selectedSurah r = Some sd ->
  1 <= SurahData.number sd <= 114 ->
  let n := SurahData.number sd in
  let w' := exec (V2.fetchNextSurah E r) w in
  V2.fetchNextSurah E r w = V2.fetchAyahs E (n mod 114 + 1) w /\
  In (Fetch (ayahsUrl (n mod 114 + 1))) (log w') /\
  (forall d, fetch_ayahs E (ayahsUrl (n mod 114 + 1)) = JsonObject 200 d ->
             selectedSurah (st w') = Some d) /\
  (n = 114 -> V2.fetchNextSurah E r w = V2.fetchAyahs E 1 w).
Proof.
  intros Hsd Hn n w'.
  assert (Hstep : V2.fetchNextSurah E r w = V2.fetchAyahs E (n mod 114 + 1) w).
  { unfold V2.fetchNextSurah. rewrite Hsd.
    destruct (Z.eqb_spec (SurahData.number sd) 0) as [H0|_]; [lia|].
    cbv zeta. rewrite (next_ordinal _ Hn). reflexivity. }
  repeat split.
  - exact Hstep.
  - subst w'. unfold exec. rewrite Hstep. apply fetchAyahs_requests.
  - intros d Hd. subst w'. unfold exec. rewrite Hstep.
    rewrite (fetchAyahs_ok E _ d w Hd). reflexivity.
  - intros H114. rewrite Hstep. subst n. rewrite H114. reflexivity.
Qed.

Lemma next_chapter_wraps_witness :
  selectedSurah (st (reading anNaas)) = Some anNaas /\
  1 <= SurahData.number anNaas <= 114 /\
  selectedSurah (st (exec (V2.fetchNextSurah sampleEnv (st (reading anNaas)))
                          (reading anNaas))) = Some alFaatiha.
Proof.
  split; [reflexivity|]. split; [cbn; lia|].
  apply (next_chapter_wraps sampleEnv (st (reading anNaas)) anNaas (reading anNaas)
           eq_refl ltac:(cbn; lia)).
  reflexivity.
Defined.

(** C3.  From a held chapter with ordinal [n] in [2,114], [fetchPreviousSurah]
    is [fetchAyahs] of [n - 1]; from chapter 1 it does nothing at all: no
    request, no state write, the loaded chapter stays chapter 1. *)
Theorem previous_chapter_clamps (E : Env) (r : AppState) (sd : SurahData.t) (w : World) :
  selectedSurah r = Some sd ->
  1 <= SurahData.number sd <= 114 ->
  let n := SurahData.number sd in
  let w' := exec (V2.fetchPreviousSurah E r) w in
  (2 <= n ->
     V2.fetchPreviousSurah E r w = V2.fetchAyahs E (n - 1) w /\
     In (Fetch (ayahsUrl (n - 1))) (log w') /\
     (forall d, fetch_ayahs E (ayahsUrl (n - 1)) = JsonObject 200 d ->
                selectedSurah (st w') = Some d)) /\
  (n = 1 -> V2.fetchPreviousSurah E r w = (Ok tt, w) /\ w' = w).
Proof.
  intros Hsd Hn n w'. split.
  - intros H2.
    assert (Hstep : V2.fetchPreviousSurah E r w = V2.fetchAyahs E (n - 1) w).
    { unfold V2.fetchPreviousSurah. rewrite Hsd.
      destruct (Z.eqb_spec (SurahData.number sd) 0) as [H0|_]; [lia|].
      destruct (Z.ltb_spec 1 (SurahData.number sd)) as [_|Hle]; [|lia].
      reflexivity. }
    repeat split.
    + exact Hstep.
    + subst w'. unfold exec. rewrite Hstep. apply fetchAyahs_requests.
    + intros d Hd. subst w'. unfold exec. rewrite Hstep.
      rewrite (fetchAyahs_ok E _ d w Hd). reflexivity.
  - intros H1.
    assert (Hstep : V2.fetchPreviousSurah E r w = (Ok tt, w)).
    { unfold V2.fetchPreviousSurah. rewrite Hsd. fold n. rewrite H1. reflexivity. }
    split; [exact Hstep|]. subst w'. unfold exec. rewrite Hstep. reflexivity.
Qed.

Lemma previous_chapter_clamps_witness :
  (selectedSurah (st (reading alBaqara)) = Some alBaqara /\
   1 <= SurahData.number alBaqara <= 114 /\
   2 <= SurahData.number alBaqara /\
   selectedSurah (st (exec (V2.fetchPreviousSurah sampleEnv (st (reading alBaqara)))
                           (reading alBaqara))) = Some alFaatiha) /\
  (selectedSurah (st (reading alFaatiha)) = Some alFaatiha /\
   SurahData.number alFaatiha = 1 /\
   exec (V2.fetchPreviousSurah sampleEnv (st (reading alFaatiha))) (reading alFaatiha)
   = reading alFaatiha).
Proof.
  split.
  - split; [reflexivity|]. split; [cbn; lia|]. split; [cbn; lia|].
    apply (proj1 (previous_chapter_clamps sampleEnv (st (reading alBaqara)) alBaqara
                    (reading alBaqara) eq_refl ltac:(cbn; lia)));
      [cbn; lia | reflexivity].
  - split; [reflexivity|]. split; [reflexivity|].
    apply (proj2 (previous_chapter_clamps sampleEnv (st (reading alFaatiha)) alFaatiha
                    (reading alFaatiha) eq_refl ltac:(cbn; lia))).
    reflexivity.
Defined.

(** ** Auto-advance *)

Section Callback.
Variable E : Env.

Lemma V2_callback_next (r : AppState) (sd : SurahData.t) (i : nat) (v : Ayah.t) :
  selectedSurah r = Some sd ->
  NoDup (map Ayah.number (SurahData.ayahs sd)) ->
  nth_error (SurahData.ayahs sd) i = Some v ->
  V2.onPlaybackStatusUpdate E r v finishedStatus =
  match nth_error (SurahData.ayahs sd) (S i) with
  | Some nextAyah => V2.playAudio E r nextAyah
  | None => ret tt
  end.
Proof.
  intros Hsd Hnd Hi. unfold V2.onPlaybackStatusUpdate, findIndex. cbn.
  rewrite Hsd, (findIndexFrom_found v _ i 0 Hnd Hi), Z.add_0_l, at_index_succ.
  reflexivity.
Qed.

Lemma V1_callback_next (r : AppState) (sd : SurahData.t) (i : nat) (v : Ayah.t) :
  selectedSurah r = Some sd ->
  NoDup (map Ayah.number (SurahData.ayahs sd)) ->
  nth_error (SurahData.ayahs sd) i = Some v ->
  V1.onPlaybackStatusUpdate E r v finishedStatus =
  match nth_error (SurahData.ayahs sd) (S i) with
  | Some nextAyah => V1.playAudio E r nextAyah
  | None => ret tt
  end.
Proof.
  intros Hsd Hnd Hi. unfold V1.onPlaybackStatusUpdate, findIndex. cbn.
  rewrite Hsd, (findIndexFrom_found v _ i 0 Hnd Hi), Z.add_0_l, at_index_succ.
  reflexivity.
Qed.

End Callback.

(** C1.  In both listings, when the callback registered for [v], the verse
    at position [i] of the chapter held by its render, receives the finished
    signal: if a verse follows, the callback is exactly [playAudio] of that
    verse, which (the playback calls resolving) makes it the cursor and puts
    a newly created sound in the slot; if [v] is the last verse, the world
    is left as it was: same cursor, same slot, same chapter, no new sound.
    The global verse numbers of a chapter are distinct (data model). *)
Theorem auto_advance_within_chapter (E : Env) (r : AppState) (sd : SurahData.t)
    (i : nat) (v : Ayah.t) (w : World) :
  selectedSurah r = Some sd ->
  NoDup (map Ayah.number (SurahData.ayahs sd)) ->
  nth_error (SurahData.ayahs sd) i = Some v ->
  let w1 := exec (V1.onPlaybackStatusUpdate E r v finishedStatus) w in
  let w2 := exec (V2.onPlaybackStatusUpdate E r v finishedStatus) w in
  (forall next, nth_error (SurahData.ayahs sd) (S i) = Some next ->
     V1.onPlaybackStatusUpdate E r v finishedStatus w = V1.playAudio E r next w /\
     V2.onPlaybackStatusUpdate E r v finishedStatus w = V2.playAudio E r next w /\
     (controls_ok E r ->
      create_ok E (audioUri (Ayah.number next)) = true ->
      (selectedAyah (st w1) = Some next /\ sound (st w1) = Some (fresh w) /\
       fresh w1 = S (fresh w)) /\
      (selectedAyah (st w2) = Some next /\ sound (st w2) = Some (fresh w) /\
       fresh w2 = S (fresh w)))) /\
  (S i = List.length (SurahData.ayahs sd) ->
     V1.onPlaybackStatusUpdate E r v finishedStatus w = (Ok tt, w) /\
     V2.onPlaybackStatusUpdate E r v finishedStatus w = (Ok tt, w) /\
     w1 = w /\ w2 = w).
Proof.
  intros Hsd Hnd Hi w1 w2.
  pose proof (V1_callback_next E r sd i v Hsd Hnd Hi) as H1.
  pose proof (V2_callback_next E r sd i v Hsd Hnd Hi) as H2.
  split.
  - intros next Hnext. rewrite Hnext in H1, H2.
    split; [now rewrite H1|]. split; [now rewrite H2|].
    intros Hctl Hcreate. subst w1 w2. rewrite H1, H2. split.
    + assert (Hunl : forall s, sound r = Some s -> unload_ok E s = true)
        by (intros s Hs; apply (Hctl s Hs)).
      destruct (V1_playAudio_ok E r next w Hunl Hcreate) as (_ & Hc & Hs & _).
      repeat split; [exact Hc | exact Hs |].
      unfold V1.playAudio, unload_from.
      destruct (sound r) as [s|] eqn:Hsr; run;
        [rewrite (Hunl s eq_refl); cbn|]; rewrite Hcreate; cbn;
        destruct (play_ok E (fresh w)); reflexivity.
    + unfold exec. rewrite (V2_playAudio_ok E r next w Hctl Hcreate).
      repeat split.
  - intros Hlast. rewrite (nth_error_last_none _ _ Hlast) in H1, H2.
    subst w1 w2. rewrite H1, H2. repeat split.
Qed.

Lemma auto_advance_within_chapter_witness :
  (nth_error (SurahData.ayahs alFaatiha) 1 = Some (ayah 2 2) /\
   controls_ok sampleEnv (st (reading alFaatiha)) /\
   selectedAyah (st (exec (V2.onPlaybackStatusUpdate sampleEnv (st (reading alFaatiha))
                             (ayah 1 1) finishedStatus) (reading alFaatiha)))
   = Some (ayah 2 2)) /\
  (7%nat = List.length (SurahData.ayahs alFaatiha) /\
   exec (V2.onPlaybackStatusUpdate sampleEnv (st (reading alFaatiha))
           (ayah 7 7) finishedStatus) (reading alFaatiha)
   = reading alFaatiha).
Proof.
  assert (Hnd : NoDup (map Ayah.number (SurahData.ayahs alFaatiha))).
  { cbn. repeat (constructor; [cbn; intuition discriminate|]). constructor. }
  assert (Hctl : controls_ok sampleEnv (st (reading alFaatiha))).
  { intros s Hs. discriminate Hs. }
  split.
  - split; [reflexivity|]. split; [exact Hctl|].
    apply (proj1 (auto_advance_within_chapter sampleEnv (st (reading alFaatiha))
                    alFaatiha 0 (ayah 1 1) (reading alFaatiha) eq_refl Hnd eq_refl)
             (ayah 2 2) eq_refl);
      [exact Hctl | reflexivity].
  - split; [reflexivity|].
    apply (proj2 (auto_advance_within_chapter sampleEnv (st (reading alFaatiha))
                    alFaatiha 6 (ayah 7 7) (reading alFaatiha) eq_refl Hnd eq_refl)
             eq_refl).
Defined.

(** C10.  When the verse [v] of a callback does not occur, by global number,
    in the chapter held by the render that created the callback, the lookup
    gives [-1] and the callback is [playAudio] of that chapter's first verse.
    The chapter consulted is the captured one, not the one loaded when the
    signal arrives. *)
Theorem finished_verse_outside_captured_chapter (E : Env) (r : AppState)
    (sd : SurahData.t) (first : Ayah.t) (rest : list Ayah.t) (v : Ayah.t) (w : World) :
  selectedSurah r = Some sd ->
  SurahData.ayahs sd = first :: rest ->
  ~ In (Ayah.number v) (map Ayah.number (SurahData.ayahs sd)) ->
  findIndex (fun a => Ayah.number a =? Ayah.number v) (SurahData.ayahs sd) = -1 /\
  V1.onPlaybackStatusUpdate E r v finishedStatus w = V1.playAudio E r first w /\
  V2.onPlaybackStatusUpdate E r v finishedStatus w = V2.playAudio E r first w.
Proof.
  intros Hsd Hl Hout.
  assert (Hidx : findIndex (fun a => Ayah.number a =? Ayah.number v)
                   (SurahData.ayahs sd) = -1)
    by (apply findIndexFrom_absent, Hout).
  split; [exact Hidx|].
  unfold V1.onPlaybackStatusUpdate, V2.onPlaybackStatusUpdate. cbn.
  rewrite Hsd, Hidx, Hl. split; reflexivity.
Qed.

Lemma finished_verse_outside_captured_chapter_witness :
  selectedSurah (st (reading alBaqara)) = Some alBaqara /\
  SurahData.ayahs alBaqara = [ayah 8 1; ayah 9 2; ayah 10 3] /\
  ~ In (Ayah.number (ayah 1 1)) (map Ayah.number (SurahData.ayahs alBaqara)) /\
  V2.onPlaybackStatusUpdate sampleEnv (st (reading alBaqara)) (ayah 1 1) finishedStatus
    (reading alBaqara)
  = V2.playAudio sampleEnv (st (reading alBaqara)) (ayah 8 1) (reading alBaqara).
Proof.
  assert (Hout : ~ In (Ayah.number (ayah 1 1)) (map Ayah.number (SurahData.ayahs alBaqara)))
    by (cbn; intuition discriminate).
  split; [reflexivity|]. split; [reflexivity|]. split; [exact Hout|].
  apply (finished_verse_outside_captured_chapter sampleEnv (st (reading alBaqara))
           alBaqara (ayah 8 1) [ayah 9 2; ayah 10 3] (ayah 1 1) (reading alBaqara)
           eq_refl eq_refl Hout).
Defined.

(** C10, as worded, fails: verse 1 of chapter 1 is playing when chapter 2
    gets loaded; its number is not in chapter 2, yet on the finished signal
    the sequencer plays verse 2 of chapter 1, not the first verse of the
    loaded chapter. *)
Lemma chapter_change_unseen_by_callback :
  let w := exec (V2.statusUpdate sampleEnv 0 finishedStatus) scrolledOn in
  selectedSurah (st scrolledOn) = Some alBaqara /\
  ~ In (Ayah.number (ayah 1 1)) (map Ayah.number (SurahData.ayahs alBaqara)) /\
  nth_error (SurahData.ayahs alBaqara) 0 = Some (ayah 8 1) /\
  selectedAyah (st w) = Some (ayah 2 2) /\
  selectedAyah (st w) <> Some (ayah 8 1) /\
  In (CreateAsync (audioUri 2) true)
     (emitted (V2.statusUpdate sampleEnv 0 finishedStatus) scrolledOn) /\
  ~ In (CreateAsync (audioUri 8) true)
       (emitted (V2.statusUpdate sampleEnv 0 finishedStatus) scrolledOn).
Proof.
  vm_compute. repeat split; try discriminate; intuition discriminate.
Qed.

(** ** The two lookups, run to their end *)

Section Fetch.
Variable E : Env.

Lemma V2_fetchSurahs_run (w : World) :
  V2.fetchSurahs E w =
  (Ok tt,
   mkWorld (mkState (showSurahs (st w))
                    (match fetch_surahs E surahsUrl with
                     | JsonObject code data => if code =? 200 then data else surahs (st w)
                     | _ => surahs (st w)
                     end)
                    (selectedSurah (st w)) false (selectedAyah (st w)) (sound (st w)))
           (loaded w) (fresh w) (callbacks w)
           (log w ++ SetLoading true :: Fetch surahsUrl ::
              match fetch_surahs E surahsUrl with
              | JsonObject code data =>
                  if code =? 200 then [SetSurahs data]
                  else [ConsoleError "Failed to fetch surahs:"]
              | _ => [ConsoleError "Error fetching Surahs:"]
              end ++ [SetLoading false])).
Proof.
  unfold V2.fetchSurahs.
  destruct (fetch_surahs E surahsUrl) as [| | |code data]; run;
    try destruct (code =? 200); run; now rewrite <- !app_assoc.
Qed.

Lemma V2_fetchAyahs_run (n : Z) (w : World) :
  V2.fetchAyahs E n w =
  (Ok tt,
   mkWorld (mkState (showSurahs (st w)) (surahs (st w))
                    (match fetch_ayahs E (ayahsUrl n) with
                     | JsonObject code data =>
                         if code =? 200 then Some data else selectedSurah (st w)
                     | _ => selectedSurah (st w)
                     end)
                    false (selectedAyah (st w)) (sound (st w)))
           (loaded w) (fresh w) (callbacks w)
           (log w ++ SetLoading true :: Fetch (ayahsUrl n) ::
              match fetch_ayahs E (ayahsUrl n) with
              | JsonObject code data =>
                  if code =? 200 then [SetSelectedSurah (Some data)]
                  else [ConsoleError "Failed to fetch ayahs:"]
              | _ => [ConsoleError "Error fetching Ayahs:"]
              end ++ [SetLoading false])).
Proof.
  unfold V2.fetchAyahs.
  destruct (fetch_ayahs E (ayahsUrl n)) as [| | |code data]; run;
    try destruct (code =? 200); run; now rewrite <- !app_assoc.
Qed.

Lemma V1_fetchSurahs_run (w : World) :
  V1.fetchSurahs E w =
  (Ok tt,
   mkWorld (mkState (showSurahs (st w))
                    (match fetch_surahs E surahsUrl with
                     | JsonObject code data => if code =? 200 then data else surahs (st w)
                     | _ => surahs (st w)
                     end)
                    (selectedSurah (st w)) false (selectedAyah (st w)) (sound (st w)))
           (loaded w) (fresh w) (callbacks w)
           (log w ++ SetLoading true :: Fetch surahsUrl ::
              match fetch_surahs E surahsUrl with
              | JsonObject code data => if code =? 200 then [SetSurahs data] else []
              | _ => [ConsoleError "Error fetching Surahs:"]
              end ++ [SetLoading false])).
Proof.
  unfold V1.fetchSurahs.
  destruct (fetch_surahs E surahsUrl) as [| | |code data]; run;
    try destruct (code =? 200); run; now rewrite <- !app_assoc.
Qed.

Lemma V1_fetchAyahs_run (n : Z) (w : World) :
  V1.fetchAyahs E n w =
  (Ok tt,
   mkWorld (mkState (showSurahs (st w)) (surahs (st w))
                    (match fetch_ayahs E (ayahsUrl n) with
                     | JsonObject code data =>
                         if code =? 200 then Some data else selectedSurah (st w)
                     | _ => selectedSurah (st w)
                     end)
                    false (selectedAyah (st w)) (sound (st w)))
           (loaded w) (fresh w) (callbacks w)
           (log w ++ SetLoading true :: Fetch (ayahsUrl n) ::
              match fetch_ayahs E (ayahsUrl n) with
              | JsonObject code data =>
                  if code =? 200 then [SetSelectedSurah (Some data)] else []
              | _ => [ConsoleError "Error fetching Ayahs:"]
              end ++ [SetLoading false])).
Proof.
  unfold V1.fetchAyahs.
  destruct (fetch_ayahs E (ayahsUrl n)) as [| | |code data]; run;
    try destruct (code =? 200); run; now rewrite <- !app_assoc.
Qed.

End Fetch.

(** Proves [toggles_loading] from the end state [Hrun] of a lookup whose
    answer is [resp]. *)
Ltac bracket Hrun resp :=
  unfold toggles_loading, result;
  split;
  [ eexists (Fetch _ :: _); split;
    [ apply emitted_app; unfold exec; rewrite Hrun; cbn [snd log]; reflexivity
    | intros b; destruct resp as [| | |code data];
      try destruct (code =? 200); cbn; intuition discriminate ]
  | unfold exec; rewrite Hrun; split; reflexivity ].

(** C8.  [fetchSurahs] and [fetchAyahs], in both listings and whatever the
    API answers, first raise the loading flag, last lower it, and write it
    nowhere in between; the run ends with the flag down. *)
Theorem loading_flag_discipline (E : Env) (n : Z) (w : World) :
  toggles_loading (V2.fetchSurahs E) w /\
  toggles_loading (V2.fetchAyahs E n) w /\
  toggles_loading (V1.fetchSurahs E) w /\
  toggles_loading (V1.fetchAyahs E n) w.
Proof.
  split; [|split; [|split]].
  - bracket (V2_fetchSurahs_run E w) (fetch_surahs E surahsUrl).
  - bracket (V2_fetchAyahs_run E n w) (fetch_ayahs E (ayahsUrl n)).
  - bracket (V1_fetchSurahs_run E w) (fetch_surahs E surahsUrl).
  - bracket (V1_fetchAyahs_run E n w) (fetch_ayahs E (ayahsUrl n)).
Qed.

(** C7.  Second listing: when a lookup fails (the fetch rejects, the body is
    not JSON or is [null], or the code is not 200), [fetchSurahs] and
    [fetchAyahs] do not reject, log to the console, and leave the state as
    it was but for the lowered loading flag: the chapter list, respectively
    the loaded chapter, is the one held before. *)
Theorem fetch_failure_keeps_state (E : Env) (n : Z) (w : World) :
  (failed (fetch_surahs E surahsUrl) ->
     result (V2.fetchSurahs E) w = Ok tt /\
     st (exec (V2.fetchSurahs E) w) = idle (st w) /\
     surahs (st (exec (V2.fetchSurahs E) w)) = surahs (st w) /\
     exists msg, In (ConsoleError msg) (emitted (V2.fetchSurahs E) w)) /\
  (failed (fetch_ayahs E (ayahsUrl n)) ->
     result (V2.fetchAyahs E n) w = Ok tt /\
     st (exec (V2.fetchAyahs E n) w) = idle (st w) /\
     selectedSurah (st (exec (V2.fetchAyahs E n) w)) = selectedSurah (st w) /\
     exists msg, In (ConsoleError msg) (emitted (V2.fetchAyahs E n) w)).
Proof.
  split; intros Hfail.
  - pose proof (V2_fetchSurahs_run E w) as Hrun.
    unfold result, exec. split; [now rewrite Hrun|].
    destruct (fetch_surahs E surahsUrl) as [| | |code data] eqn:Hresp;
      try (destruct (Z.eqb_spec code 200) as [H200|_]; [contradiction|]);
      (split; [now rewrite Hrun|]); (split; [now rewrite Hrun|]);
      eexists; (erewrite emitted_app; [|unfold exec; rewrite Hrun; reflexivity]);
      cbn; right; right; left; reflexivity.
  - pose proof (V2_fetchAyahs_run E n w) as Hrun.
    unfold result, exec. split; [now rewrite Hrun|].
    destruct (fetch_ayahs E (ayahsUrl n)) as [| | |code data] eqn:Hresp;
      try (destruct (Z.eqb_spec code 200) as [H200|_]; [contradiction|]);
      (split; [now rewrite Hrun|]); (split; [now rewrite Hrun|]);
      eexists; (erewrite emitted_app; [|unfold exec; rewrite Hrun; reflexivity]);
      cbn; right; right; left; reflexivity.
Qed.

Lemma fetch_failure_keeps_state_witness :
  failed (fetch_ayahs offlineEnv (ayahsUrl 2)) /\
  selectedSurah (st (exec (V2.fetchAyahs offlineEnv 2) (reading alFaatiha)))
  = selectedSurah (st (reading alFaatiha)).
Proof.
  split; [exact I|].
  apply (proj2 (fetch_failure_keeps_state offlineEnv 2 (reading alFaatiha)) I).
Defined.

(** The first listing keeps the state and swallows the error in the same
    way, but says nothing on the console when the code is not 200. *)
Lemma V1_fetch_failure_keeps_state (E : Env) (n : Z) (w : World) :
  (failed (fetch_surahs E surahsUrl) ->
     V1.fetchSurahs E w =
     (Ok tt, mkWorld (idle (st w)) (loaded w) (fresh w) (callbacks w)
               (log (exec (V1.fetchSurahs E) w)))) /\
  (failed (fetch_ayahs E (ayahsUrl n)) ->
     V1.fetchAyahs E n w =
     (Ok tt, mkWorld (idle (st w)) (loaded w) (fresh w) (callbacks w)
               (log (exec (V1.fetchAyahs E n) w)))) /\
  (forall code data, fetch_ayahs E (ayahsUrl n) = JsonObject code data -> code <> 200 ->
     emitted (V1.fetchAyahs E n) w = [SetLoading true; Fetch (ayahsUrl n); SetLoading false]).
Proof.
  split; [|split].
  - intros Hfail. unfold exec. rewrite V1_fetchSurahs_run.
    destruct (fetch_surahs E surahsUrl) as [| | |code data];
      try (destruct (Z.eqb_spec code 200) as [H200|_]; [contradiction|]); reflexivity.
  - intros Hfail. unfold exec. rewrite V1_fetchAyahs_run.
    destruct (fetch_ayahs E (ayahsUrl n)) as [| | |code data];
      try (destruct (Z.eqb_spec code 200) as [H200|_]; [contradiction|]); reflexivity.
  - intros code data Hresp Hcode. apply emitted_app. unfold exec.
    rewrite V1_fetchAyahs_run, Hresp.
    destruct (Z.eqb_spec code 200) as [H200|_]; [contradiction|]. reflexivity.
Qed.

(** ** Playing a verse *)

Section Traces.
Variable E : Env.

(** Rewrites [emitted] of a run to the events it appended. *)
Ltac trace :=
  erewrite emitted_app;
  [| unfold exec; run;
     repeat match goal with
            | H : _ = true |- _ => rewrite H; cbn
            | H : _ = false |- _ => rewrite H; cbn
            end;
     rewrite <- ?app_assoc; reflexivity ].

Lemma V2_playAudio_creates (r : AppState) (v : Ayah.t) (w : World) (uri : string) (b : bool) :
  In (CreateAsync uri b) (emitted (V2.playAudio E r v) w) ->
  uri = audioUri (Ayah.number v) /\ b = true.
Proof.
  unfold V2.playAudio.
  destruct (sound r) as [s|];
    [destruct (stop_ok E s) eqn:Hstop; [destruct (unload_ok E s) eqn:Hunl|]|];
    destruct (create_ok E (audioUri (Ayah.number v))) eqn:Hc;
    trace; cbn; intuition congruence.
Qed.

Lemma V1_playAudio_creates (r : AppState) (v : Ayah.t) (w : World) (uri : string) (b : bool) :
  In (CreateAsync uri b) (emitted (V1.playAudio E r v) w) ->
  uri = audioUri (Ayah.number v) /\ b = false.
Proof.
  unfold V1.playAudio.
  destruct (sound r) as [s|];
    [destruct (unload_ok E s) eqn:Hunl|];
    destruct (create_ok E (audioUri (Ayah.number v))) eqn:Hc;
    try destruct (play_ok E (fresh w)) eqn:Hp;
    trace; cbn; intuition congruence.
Qed.

(** [playAudio] only ever stops or unloads the sound its render captured. *)
Lemma V2_playAudio_releases_captured (r : AppState) (v : Ayah.t) (w : World) (s : Sound) :
  In (StopAsync s) (emitted (V2.playAudio E r v) w) \/
  In (UnloadAsync s) (emitted (V2.playAudio E r v) w) ->
  sound r = Some s.
Proof.
  unfold V2.playAudio.
  destruct (sound r) as [s'|];
    [destruct (stop_ok E s') eqn:Hstop; [destruct (unload_ok E s') eqn:Hunl|]|];
    destruct (create_ok E (audioUri (Ayah.number v))) eqn:Hc;
    trace; cbn; intuition congruence.
Qed.

(** The first listing's [playAudio] never stops a sound. *)
Lemma V1_playAudio_never_stops (r : AppState) (v : Ayah.t) (w : World) (s : Sound) :
  ~ In (StopAsync s) (emitted (V1.playAudio E r v) w).
Proof.
  unfold V1.playAudio.
  destruct (sound r) as [s'|];
    [destruct (unload_ok E s') eqn:Hunl|];
    destruct (create_ok E (audioUri (Ayah.number v))) eqn:Hc;
    try destruct (play_ok E (fresh w)) eqn:Hp;
    trace; cbn; intuition congruence.
Qed.

End Traces.

Lemma audioUri_parts (n : Z) :
  audioUri n = (baseAudioUrl ++ "/" ++ reciterId ++ "/" ++ toString n ++ ".mp3")%string.
Proof. reflexivity. Qed.

(** C9.  In both listings the only audio resource [playAudio] asks for,
    for a verse [v], is [{baseAudioUrl}/{reciterId}/{v.number}.mp3]: the
    address is built from the global number, never from [numberInSurah].
    When the playback calls resolve, a new sound loaded from that address
    sits in the slot and [v] is the cursor. *)
Theorem audio_addressed_by_global_number (E : Env) (r : AppState) (v : Ayah.t) (w : World) :
  let uri := (baseAudioUrl ++ "/" ++ reciterId ++ "/" ++ toString (Ayah.number v) ++ ".mp3")%string in
  let w1 := exec (V1.playAudio E r v) w in
  let w2 := exec (V2.playAudio E r v) w in
  (forall u b, In (CreateAsync u b) (emitted (V1.playAudio E r v) w) -> u = uri) /\
  (forall u b, In (CreateAsync u b) (emitted (V2.playAudio E r v) w) -> u = uri) /\
  (controls_ok E r ->
   create_ok E uri = true ->
   (sound (st w1) = Some (fresh w) /\ In (fresh w, uri) (loaded w1) /\
    selectedAyah (st w1) = Some v) /\
   (sound (st w2) = Some (fresh w) /\ In (fresh w, uri) (loaded w2) /\
    selectedAyah (st w2) = Some v)).
Proof.
  intros uri w1 w2. subst uri. rewrite <- audioUri_parts.
  split; [|split].
  - intros u b Hin. apply (V1_playAudio_creates E r v w u b Hin).
  - intros u b Hin. apply (V2_playAudio_creates E r v w u b Hin).
  - intros Hctl Hcreate. split.
    + assert (Hunl : forall s, sound r = Some s -> unload_ok E s = true)
        by (intros s Hs; apply (Hctl s Hs)).
      destruct (V1_playAudio_ok E r v w Hunl Hcreate) as (_ & Hc & Hs & Hl).
      subst w1. rewrite Hl. repeat split; auto.
      apply in_or_app. right. left. reflexivity.
    + subst w2. unfold exec. rewrite (V2_playAudio_ok E r v w Hctl Hcreate). cbn.
      repeat split. apply in_or_app. right. left. reflexivity.
Qed.

Lemma audio_addressed_by_global_number_witness :
  controls_ok sampleEnv (st (reading alBaqara)) /\
  create_ok sampleEnv "https://cdn.islamic.network/quran/audio/128/ar.alafasy/9.mp3" = true /\
  Ayah.numberInSurah (ayah 9 2) = 2 /\
  In (0%nat, "https://cdn.islamic.network/quran/audio/128/ar.alafasy/9.mp3")
     (loaded (exec (V2.playAudio sampleEnv (st (reading alBaqara)) (ayah 9 2))
                   (reading alBaqara))).
Proof.
  assert (Hctl : controls_ok sampleEnv (st (reading alBaqara)))
    by (intros s Hs; discriminate Hs).
  split; [exact Hctl|]. split; [reflexivity|]. split; [reflexivity|].
  apply (proj2 (proj2 (audio_addressed_by_global_number sampleEnv
                         (st (reading alBaqara)) (ayah 9 2) (reading alBaqara)))
           Hctl eq_refl).
Defined.

(** ** Opening a chapter while a verse plays *)

(** C5, as worded, fails: verse 1 of chapter 1 is playing on sound [0] when
    chapter 2 is opened; afterwards the chapter is replaced but the cursor
    still names verse 1, sound [0] is still in the slot and still loaded,
    and it was neither stopped nor unloaded. *)
Lemma fetchAyahs_keeps_cursor_and_sound :
  let w := exec (V2.fetchAyahs sampleEnv 2) playingFirst in
  selectedAyah (st playingFirst) = Some (ayah 1 1) /\
  sound (st playingFirst) = Some 0%nat /\
  selectedSurah (st w) = Some alBaqara /\
  selectedAyah (st w) = Some (ayah 1 1) /\
  selectedAyah (st w) <> None /\
  sound (st w) = Some 0%nat /\
  map fst (loaded w) = [0%nat] /\
  ~ In (StopAsync 0) (log w) /\
  ~ In (UnloadAsync 0) (log w).
Proof.
  vm_compute. repeat split; try discriminate; intuition discriminate.
Qed.

(** C5, amended.  In both listings [fetchAyahs] touches neither the cursor
    nor the sound: both are what they were, the loaded players are the
    same, and no stop or unload is issued.  When the API answers with code
    200 the answer becomes the loaded chapter. *)
Theorem fetchAyahs_replaces_chapter_only (E : Env) (n : Z) (w : World) :
  let w1 := exec (V1.fetchAyahs E n) w in
  let w2 := exec (V2.fetchAyahs E n) w in
  (selectedAyah (st w1) = selectedAyah (st w) /\ sound (st w1) = sound (st w) /\
   loaded w1 = loaded w /\
   forall s, ~ In (StopAsync s) (emitted (V1.fetchAyahs E n) w) /\
             ~ In (UnloadAsync s) (emitted (V1.fetchAyahs E n) w)) /\
  (selectedAyah (st w2) = selectedAyah (st w) /\ sound (st w2) = sound (st w) /\
   loaded w2 = loaded w /\
   forall s, ~ In (StopAsync s) (emitted (V2.fetchAyahs E n) w) /\
             ~ In (UnloadAsync s) (emitted (V2.fetchAyahs E n) w)) /\
  (forall d, fetch_ayahs E (ayahsUrl n) = JsonObject 200 d ->
             selectedSurah (st w1) = Some d /\ selectedSurah (st w2) = Some d).
Proof.
  intros w1 w2. subst w1 w2. unfold exec.
  split; [|split].
  - rewrite V1_fetchAyahs_run. repeat split; intros Hin;
      (erewrite emitted_app in Hin;
       [|unfold exec; rewrite V1_fetchAyahs_run; reflexivity]);
      destruct (fetch_ayahs E (ayahsUrl n)) as [| | |code data];
      try destruct (code =? 200); cbn in Hin; intuition discriminate.
  - rewrite V2_fetchAyahs_run. repeat split; intros Hin;
      (erewrite emitted_app in Hin;
       [|unfold exec; rewrite V2_fetchAyahs_run; reflexivity]);
      destruct (fetch_ayahs E (ayahsUrl n)) as [| | |code data];
      try destruct (code =? 200); cbn in Hin; intuition discriminate.
  - intros d Hd. rewrite V1_fetchAyahs_run, V2_fetchAyahs_run, Hd. split; reflexivity.
Qed.

Lemma fetchAyahs_replaces_chapter_only_witness :
  fetch_ayahs sampleEnv (ayahsUrl 2) = JsonObject 200 alBaqara /\
  selectedSurah (st (exec (V2.fetchAyahs sampleEnv 2) playingFirst)) = Some alBaqara.
Proof.
  split; [reflexivity|].
  apply (proj2 (proj2 (fetchAyahs_replaces_chapter_only sampleEnv 2 playingFirst))
           alBaqara eq_refl).
Defined.

(** ** One sound at a time *)

(** A tap keeps the discipline in the second listing: when the only loaded
    player is the sound in the slot and the playback calls resolve,
    [pressAyah] stops it, then unloads it, then creates the next one, which
    ends up the only loaded player. *)
Lemma V2_pressAyah_single_sound (E : Env) (v : Ayah.t) (w : World) :
  map fst (loaded w) = match sound (st w) with Some s => [s] | None => [] end ->
  controls_ok E (st w) ->
  create_ok E (audioUri (Ayah.number v)) = true ->
  let w' := exec (V2.pressAyah E v) w in
  map fst (loaded w') = [fresh w] /\
  sound (st w') = Some (fresh w) /\
  emitted (V2.pressAyah E v) w =
    match sound (st w) with
    | Some s => [StopAsync s; UnloadAsync s]
    | None => []
    end ++
    [CreateAsync (audioUri (Ayah.number v)) true; SetSound (Some (fresh w));
     SetSelectedAyah (Some v); SetOnPlaybackStatusUpdate (fresh w)].
Proof.
  intros Hone Hctl Hcreate w'.
  pose proof (V2_playAudio_ok E (st w) v w Hctl Hcreate) as Hrun.
  assert (Hw' : w' = exec (V2.playAudio E (st w) v) w) by reflexivity.
  split; [|split].
  - rewrite Hw'. unfold exec. rewrite Hrun. cbn. rewrite map_app. cbn.
    unfold unload_from. destruct (sound (st w)) as [s|].
    + destruct (loaded w) as [|[s0 u0] [|p l]]; try discriminate.
      cbn in Hone. injection Hone as ->. cbn. rewrite Nat.eqb_refl. reflexivity.
    + destruct (loaded w); [reflexivity|discriminate].
  - rewrite Hw'. unfold exec. rewrite Hrun. reflexivity.
  - apply emitted_app. change (exec (V2.pressAyah E v) w) with w'.
    rewrite Hw'. unfold exec. rewrite Hrun. reflexivity.
Qed.

(** The callback that a tap registers runs with the render of the tap:
    when the sound it started finishes, the next verse is played by the
    [playAudio] that still sees the state from before the tap. *)
Lemma V2_finish_after_tap (E : Env) (sd : SurahData.t) (i : nat) (v : Ayah.t) (w : World) :
  selectedSurah (st w) = Some sd ->
  NoDup (map Ayah.number (SurahData.ayahs sd)) ->
  nth_error (SurahData.ayahs sd) i = Some v ->
  controls_ok E (st w) ->
  create_ok E (audioUri (Ayah.number v)) = true ->
  let w' := exec (V2.pressAyah E v) w in
  V2.statusUpdate E (fresh w) finishedStatus w' =
  match nth_error (SurahData.ayahs sd) (S i) with
  | Some nextAyah => V2.playAudio E (st w) nextAyah w'
  | None => (Ok tt, w')
  end.
Proof.
  intros Hsd Hnd Hi Hctl Hcreate w'.
  assert (Hcb : callbacks w' = (fresh w, (st w, v)) :: callbacks w).
  { subst w'. unfold V2.pressAyah, exec.
    rewrite (V2_playAudio_ok E (st w) v w Hctl Hcreate). reflexivity. }
  unfold V2.statusUpdate. rewrite Hcb. cbn [lookup_callback].
  rewrite Nat.eqb_refl, (V2_callback_next E (st w) sd i v Hsd Hnd Hi).
  destruct (nth_error (SurahData.ayahs sd) (S i)); reflexivity.
Qed.

(** Hence, from an empty slot, auto-advance never releases the sound that
    finished: after the callback both it and its successor are loaded. *)
Lemma V2_auto_advance_keeps_finished_sound (E : Env) (sd : SurahData.t) (i : nat)
    (v next : Ayah.t) (w : World) :
  selectedSurah (st w) = Some sd ->
  NoDup (map Ayah.number (SurahData.ayahs sd)) ->
  nth_error (SurahData.ayahs sd) i = Some v ->
  nth_error (SurahData.ayahs sd) (S i) = Some next ->
  sound (st w) = None ->
  create_ok E (audioUri (Ayah.number v)) = true ->
  create_ok E (audioUri (Ayah.number next)) = true ->
  let w' := exec (V2.pressAyah E v) w in
  let w'' := exec (V2.statusUpdate E (fresh w) finishedStatus) w' in
  loaded w'' = loaded w ++ [(fresh w, audioUri (Ayah.number v));
                            (S (fresh w), audioUri (Ayah.number next))] /\
  sound (st w'') = Some (S (fresh w)) /\
  emitted (V2.statusUpdate E (fresh w) finishedStatus) w' =
    [CreateAsync (audioUri (Ayah.number next)) true; SetSound (Some (S (fresh w)));
     SetSelectedAyah (Some next); SetOnPlaybackStatusUpdate (S (fresh w))].
Proof.
  intros Hsd Hnd Hi Hnext Hnone Hcv Hcn w' w''.
  assert (Hctl : controls_ok E (st w)) by (intros s Hs; congruence).
  pose proof (V2_finish_after_tap E sd i v w Hsd Hnd Hi Hctl Hcv) as Hfin.
  cbv zeta in Hfin. fold w' in Hfin. rewrite Hnext in Hfin.
  assert (Hw' : w' = snd (V2.playAudio E (st w) v w)) by reflexivity.
  rewrite (V2_playAudio_ok E (st w) v w Hctl Hcv) in Hw'. cbn [snd] in Hw'.
  assert (Hrun := V2_playAudio_ok E (st w) next w' Hctl Hcn).
  rewrite <- Hfin in Hrun.
  split; [|split].
  - subst w''. unfold exec. rewrite Hrun. cbn [snd loaded].
    unfold unload_from. rewrite Hnone, Hw'. cbn [loaded fresh].
    unfold unload_from. rewrite Hnone. now rewrite <- app_assoc.
  - subst w''. unfold exec. rewrite Hrun. cbn. rewrite Hw'. reflexivity.
  - apply emitted_app. unfold exec. rewrite Hrun. cbn [snd log].
    rewrite Hnone, Hw'. reflexivity.
Qed.

(** C4, where the code departs from it.  Second listing: chapter 1 is open,
    verse 1 is tapped and plays on sound [0]; when it finishes, the callback
    starts verse 2 on sound [1] through the [playAudio] of the render that
    was tapped, whose [sound] is still [null].  Sound [0] is never stopped
    nor unloaded: two players stay loaded.  First listing: tapping verse 1
    and then verse 2 unloads sound [0] without ever stopping it. *)
Theorem auto_advance_leaves_two_sounds :
  let w := exec (V2.statusUpdate sampleEnv 0 finishedStatus) playingFirst in
  let w1 := exec (V1.pressAyah sampleEnv (ayah 2 2)) playingFirstV1 in
  (map fst (loaded playingFirst) = [0%nat] /\
   sound (st playingFirst) = Some 0%nat /\
   map fst (loaded w) = [0%nat; 1%nat] /\
   sound (st w) = Some 1%nat /\
   selectedAyah (st w) = Some (ayah 2 2) /\
   ~ In (StopAsync 0) (log w) /\
   ~ In (UnloadAsync 0) (log w)) /\
  (emitted (V1.pressAyah sampleEnv (ayah 2 2)) playingFirstV1 =
     [UnloadAsync 0; CreateAsync (audioUri 2) false; SetSound (Some 1%nat);
      SetSelectedAyah (Some (ayah 2 2)); PlayAsync 1; SetOnPlaybackStatusUpdate 1] /\
   ~ In (StopAsync 0) (log w1)).
Proof.
  vm_compute. repeat split; intuition discriminate.
Qed.

(** ** Leaving the chapter *)

(** Second listing: when the stop and the unload resolve, [handleBackPress]
    stops, unloads and empties the slot, then clears cursor and chapter;
    with an empty slot it only clears cursor and chapter. *)
Lemma V2_handleBackPress_ok (E : Env) (r : AppState) (w : World) :
  controls_ok E r ->
  V2.handleBackPress E r w =
  (Ok tt,
   mkWorld (mkState (showSurahs (st w)) (surahs (st w)) None (loading (st w)) None
                    (match sound r with Some _ => None | None => sound (st w) end))
           (unload_from r (loaded w)) (fresh w) (callbacks w)
           (log w ++
            match sound r with
            | Some s => [StopAsync s; UnloadAsync s; SetSound None]
            | None => []
            end ++ [SetSelectedAyah None; SetSelectedSurah None])).
Proof.
  intros Hctl. unfold V2.handleBackPress, unload_from.
  destruct (sound r) as [s|] eqn:Hs.
  - destruct (Hctl s Hs) as [Hstop Hunl]. run.
    rewrite Hstop. cbn. rewrite Hunl. cbn. now rewrite <- !app_assoc.
  - run. now rewrite <- !app_assoc.
Qed.

(** The first listing's [handleBackPress] never writes the cursor. *)
Lemma V1_handleBackPress_keeps_cursor (E : Env) (r : AppState) (w : World) :
  selectedAyah (st (exec (V1.handleBackPress E r) w)) = selectedAyah (st w).
Proof.
  unfold V1.handleBackPress.
  destruct (sound r) as [s|]; [|reflexivity].
  run. destruct (stop_ok E s); cbn; [|reflexivity].
  destruct (unload_ok E s); reflexivity.
Qed.

(** C6, where the code departs from it.  First listing: verse 1 of chapter 1
    plays on sound [0] and Back is pressed.  The sound is stopped, then
    unloaded, the slot and the chapter are cleared, but the cursor still
    names verse 1.  The second listing, on the same session, clears it. *)
Theorem back_press_keeps_cursor_in_first_listing :
  let w1 := exec (V1.pressBack sampleEnv) playingFirstV1 in
  let w2 := exec (V2.pressBack sampleEnv) playingFirst in
  (emitted (V1.pressBack sampleEnv) playingFirstV1 =
     [StopAsync 0; UnloadAsync 0; SetSound None; SetSelectedSurah None] /\
   sound (st w1) = None /\ loaded w1 = [] /\
   selectedSurah (st w1) = None /\
   selectedAyah (st w1) = Some (ayah 1 1)) /\
  (emitted (V2.pressBack sampleEnv) playingFirst =
     [StopAsync 0; UnloadAsync 0; SetSound None; SetSelectedAyah None;
      SetSelectedSurah None] /\
   sound (st w2) = None /\ loaded w2 = [] /\
   selectedSurah (st w2) = None /\
   selectedAyah (st w2) = None).
Proof.
  vm_compute. repeat split.
Qed.

(** * Further properties of the code *)

(** ** Addresses *)

Section Addresses.

Lemma to_int_not_nil (z : Z) :
  Z.to_int z <> Decimal.Pos Decimal.Nil /\ Z.to_int z <> Decimal.Neg Decimal.Nil.
Proof.
  split; intros H;
    pose proof (DecimalZ.of_to z) as Hz; rewrite H in Hz; cbn in Hz;
    subst z; discriminate H.
Qed.

Lemma toString_inj (n m : Z) : toString n = toString m -> n = m.
Proof.
  unfold toString. intros H.
  apply DecimalZ.to_int_inj.
  destruct (to_int_not_nil n) as [Hn1 Hn2], (to_int_not_nil m) as [Hm1 Hm2].
  pose proof (NilZero.isi (Z.to_int n) Hn1 Hn2) as Hn.
  pose proof (NilZero.isi (Z.to_int m) Hm1 Hm2) as Hm.
  rewrite H in Hn. rewrite Hn in Hm. now injection Hm.
Qed.

Lemma length_append (s t : string) :
  String.length (s ++ t)%string = (String.length s + String.length t)%nat.
Proof. induction s as [|c s IH]; cbn; [reflexivity | now rewrite IH]. Qed.

Lemma append_inj_l (t s1 s2 : string) : (s1 ++ t = s2 ++ t)%string -> s1 = s2.
Proof.
  revert s2. induction s1 as [|c s1 IH]; intros [|c2 s2] H; cbn in H.
  - reflexivity.
  - apply (f_equal String.length) in H. cbn in H. rewrite length_append in H. lia.
  - apply (f_equal String.length) in H. cbn in H. rewrite length_append in H. lia.
  - injection H as -> H. f_equal. now apply IH.
Qed.

Lemma append_inj_r (p s1 s2 : string) : (p ++ s1 = p ++ s2)%string -> s1 = s2.
Proof. induction p as [|c p IH]; cbn; intros H; [exact H | injection H as H; auto]. Qed.

End Addresses.

Lemma ayahsUrl_inj (n m : Z) : ayahsUrl n = ayahsUrl m -> n = m.
Proof.
  unfold ayahsUrl. intros H.
  apply append_inj_r, append_inj_l in H. now apply toString_inj.
Qed.

Lemma audioUri_inj (n m : Z) : audioUri n = audioUri m -> n = m.
Proof.
  unfold audioUri. intros H.
  apply append_inj_r, append_inj_l in H. now apply toString_inj.
Qed.

(** X1.  The addresses are injective in the number they embed: two verses
    share an audio address only when they share the global number, and two
    chapter requests share a URL only when they ask for the same ordinal. *)
Theorem addresses_injective (n m : Z) :
  (audioUri n = audioUri m -> n = m) /\ (ayahsUrl n = ayahsUrl m -> n = m).
Proof.
  split; [apply audioUri_inj | apply ayahsUrl_inj].
Qed.

Lemma addresses_injective_witness :
  audioUri 12 = audioUri (10 + 2) /\ 12 = 10 + 2.
Proof.
  split; [reflexivity|].
  apply (proj1 (addresses_injective 12 (10 + 2))). reflexivity.
Defined.

(** ** Sequences of chapter changes *)

Section Walk.
Variable E : Env.
Hypothesis HE : faithful E.

Lemma next_step (w : World) (sd : SurahData.t) :
  selectedSurah (st w) = Some sd ->
  1 <= SurahData.number sd <= 114 ->
  exists d, selectedSurah (st (exec (V2.onEndReached E) w)) = Some d /\
            SurahData.number d = SurahData.number sd mod 114 + 1.
Proof.
  intros Hsd Hn.
  assert (Hm : 1 <= SurahData.number sd mod 114 + 1 <= 114).
  { pose proof (Z.mod_pos_bound (SurahData.number sd) 114). lia. }
  destruct (HE _ Hm) as (d & Hd & Hnum). exists d. split; [|exact Hnum].
  unfold exec, V2.onEndReached, V2.fetchNextSurah. rewrite Hsd.
  destruct (Z.eqb_spec (SurahData.number sd) 0) as [H0|_]; [lia|].
  cbv zeta. rewrite (next_ordinal _ Hn), (fetchAyahs_ok E _ d w Hd). reflexivity.
Qed.

Lemma previous_step (w : World) (sd : SurahData.t) :
  selectedSurah (st w) = Some sd ->
  2 <= SurahData.number sd <= 114 ->
  exists d, selectedSurah (st (exec (V2.onRefresh E) w)) = Some d /\
            SurahData.number d = SurahData.number sd - 1.
Proof.
  intros Hsd Hn.
  assert (Hm : 1 <= SurahData.number sd - 1 <= 114) by lia.
  destruct (HE _ Hm) as (d & Hd & Hnum). exists d. split; [|exact Hnum].
  unfold exec, V2.onRefresh, V2.fetchPreviousSurah. rewrite Hsd.
  destruct (Z.eqb_spec (SurahData.number sd) 0) as [H0|_]; [lia|].
  destruct (Z.ltb_spec 1 (SurahData.number sd)) as [_|Hle]; [|lia].
  cbn [negb andb]. rewrite (fetchAyahs_ok E _ d w Hd). reflexivity.
Qed.

Lemma previous_at_first (w : World) (sd : SurahData.t) :
  selectedSurah (st w) = Some sd ->
  SurahData.number sd = 1 ->
  exec (V2.onRefresh E) w = w.
Proof.
  intros Hsd H1. unfold exec, V2.onRefresh, V2.fetchPreviousSurah.
  rewrite Hsd, H1. reflexivity.
Qed.

Lemma walk_forward (k : nat) (w : World) (sd : SurahData.t) :
  selectedSurah (st w) = Some sd ->
  1 <= SurahData.number sd <= 114 ->
  exists d, selectedSurah (st (times k (V2.onEndReached E) w)) = Some d /\
            SurahData.number d = (SurahData.number sd - 1 + Z.of_nat k) mod 114 + 1.
Proof.
  intros Hsd Hn. induction k as [|k IH].
  - exists sd. split; [exact Hsd|]. cbn. rewrite Z.add_0_r, Z.mod_small by lia. lia.
  - destruct IH as (dk & Hdk & Hnum).
    assert (Hrange : 1 <= SurahData.number dk <= 114).
    { pose proof (Z.mod_pos_bound (SurahData.number sd - 1 + Z.of_nat k) 114). lia. }
    destruct (next_step _ dk Hdk Hrange) as (d & Hd & Hnd).
    exists d. split; [exact Hd|]. rewrite Hnd, Hnum.
    replace (SurahData.number sd - 1 + Z.of_nat (S k))
      with ((SurahData.number sd - 1 + Z.of_nat k) + 1) by lia.
    rewrite <- (Z.add_mod_idemp_l (SurahData.number sd - 1 + Z.of_nat k) 1 114) by lia.
    reflexivity.
Qed.

End Walk.

Lemma fullEnv_faithful : faithful fullEnv.
Proof.
  intros n Hn. exists (bareSurah n). split; [|reflexivity]. cbn [fullEnv fetch_ayahs].
  destruct (find _ _) as [m|] eqn:Hfind.
  - apply find_some in Hfind. destruct Hfind as [_ Heq].
    apply String.eqb_eq, ayahsUrl_inj in Heq. now subst m.
  - assert (Hin : In n (map Z.of_nat (seq 1 114))).
    { apply in_map_iff. exists (Z.to_nat n). split; [lia|]. apply in_seq. lia. }
    pose proof (find_none _ _ Hfind n Hin) as Hno. cbn beta in Hno.
    rewrite String.eqb_refl in Hno. discriminate Hno.
Qed.

(** X2.  With an API that answers each chapter request in [1,114] with the
    chapter of that number, scrolling to the end [k] times from chapter [n]
    leaves chapter [((n - 1 + k) mod 114) + 1] loaded; 114 times bring back
    chapter [n]. *)
Theorem forward_walk_cycles (E : Env) (w : World) (sd : SurahData.t) (k : nat) :
  faithful E ->
  selectedSurah (st w) = Some sd ->
  1 <= SurahData.number sd <= 114 ->
  (exists d, selectedSurah (st (times k (V2.onEndReached E) w)) = Some d /\
             SurahData.number d = (SurahData.number sd - 1 + Z.of_nat k) mod 114 + 1) /\
  (exists d, selectedSurah (st (times 114 (V2.onEndReached E) w)) = Some d /\
             SurahData.number d = SurahData.number sd).
Proof.
  intros HE Hsd Hn. split.
  - apply (walk_forward E HE k w sd Hsd Hn).
  - destruct (walk_forward E HE 114 w sd Hsd Hn) as (d & Hd & Hnum).
    exists d. split; [exact Hd|]. rewrite Hnum.
    change (Z.of_nat 114) with (1 * 114).
    rewrite Z.mod_add, Z.mod_small by lia. lia.
Qed.

Lemma forward_walk_cycles_witness :
  faithful fullEnv /\
  selectedSurah (st (reading anNaas)) = Some anNaas /\
  1 <= SurahData.number anNaas <= 114 /\
  exists d, selectedSurah (st (times 3 (V2.onEndReached fullEnv) (reading anNaas))) = Some d /\
            SurahData.number d = (SurahData.number anNaas - 1 + Z.of_nat 3) mod 114 + 1.
Proof.
  split; [exact fullEnv_faithful|]. split; [reflexivity|]. split; [cbn; lia|].
  apply (proj1 (forward_walk_cycles fullEnv (reading anNaas) anNaas 3
                  fullEnv_faithful eq_refl ltac:(cbn; lia))).
Defined.

(** X3.  Next and previous are not inverse at the ends.  With the same API,
    scrolling to the end and then pulling to refresh returns to chapter [n]
    except from 114, where it ends on chapter 1; pulling first and scrolling
    second returns to [n] except from 1, where it ends on chapter 2. *)
Theorem next_previous_round_trip (E : Env) (w : World) (sd : SurahData.t) :
  faithful E ->
  selectedSurah (st w) = Some sd ->
  1 <= SurahData.number sd <= 114 ->
  let n := SurahData.number sd in
  (exists d, selectedSurah (st (exec (V2.onRefresh E) (exec (V2.onEndReached E) w))) = Some d /\
             SurahData.number d = if n =? 114 then 1 else n) /\
  (exists d, selectedSurah (st (exec (V2.onEndReached E) (exec (V2.onRefresh E) w))) = Some d /\
             SurahData.number d = if n =? 1 then 2 else n).
Proof.
  intros HE Hsd Hn n. split.
  - destruct (next_step E HE w sd Hsd Hn) as (d1 & Hd1 & Hn1). fold n in Hn1.
    destruct (Z.eqb_spec n 114) as [H114|Hne].
    + rewrite H114 in Hn1. change (114 mod 114 + 1) with 1 in Hn1.
      exists d1. rewrite (previous_at_first E _ d1 Hd1 Hn1). auto.
    + rewrite Z.mod_small in Hn1 by (subst n; lia).
      destruct (previous_step E HE _ d1 Hd1 ltac:(subst n; lia)) as (d2 & Hd2 & Hn2).
      exists d2. split; [exact Hd2|]. lia.
  - destruct (Z.eqb_spec n 1) as [H1|Hne].
    + rewrite (previous_at_first E w sd Hsd H1).
      destruct (next_step E HE w sd Hsd Hn) as (d1 & Hd1 & Hn1).
      exists d1. split; [exact Hd1|]. fold n in Hn1. rewrite Hn1, H1. reflexivity.
    + destruct (previous_step E HE w sd Hsd ltac:(subst n; lia)) as (d1 & Hd1 & Hn1).
      destruct (next_step E HE _ d1 Hd1 ltac:(subst n; lia)) as (d2 & Hd2 & Hn2).
      exists d2. split; [exact Hd2|]. rewrite Hn2, Hn1.
      rewrite Z.mod_small by (subst n; lia). subst n. lia.
Qed.

Lemma next_previous_round_trip_witness :
  faithful fullEnv /\
  selectedSurah (st (reading anNaas)) = Some anNaas /\
  1 <= SurahData.number anNaas <= 114 /\
  exists d, selectedSurah (st (exec (V2.onRefresh fullEnv)
                                (exec (V2.onEndReached fullEnv) (reading anNaas)))) = Some d /\
            SurahData.number d = 1.
Proof.
  split; [exact fullEnv_faithful|]. split; [reflexivity|]. split; [cbn; lia|].
  apply (proj1 (next_previous_round_trip fullEnv (reading anNaas) anNaas
                  fullEnv_faithful eq_refl ltac:(cbn; lia))).
Defined.



(** X5.  No lookup and no chapter change touches playback: after
    [fetchSurahs], [fetchNextSurah] or [fetchPreviousSurah] (second
    listing), whatever the API answers and whatever chapter is held, the
    cursor, the sound in the slot, the loaded players and the registered
    callbacks are what they were: a verse that was playing keeps playing. *)
Theorem lookups_leave_playback_alone (E : Env) (r : AppState) (w : World) :
  keeps_playback (V2.fetchSurahs E) w /\
  keeps_playback (V2.fetchNextSurah E r) w /\
  keeps_playback (V2.fetchPreviousSurah E r) w.
Proof.
  assert (Hay : forall k, keeps_playback (V2.fetchAyahs E k) w).
  { intros k. unfold keeps_playback, exec. rewrite V2_fetchAyahs_run. repeat split. }
  split; [|split].
  - unfold keeps_playback, exec. rewrite V2_fetchSurahs_run. repeat split.
  - unfold V2.fetchNextSurah.
    destruct (selectedSurah r) as [sd|]; [|repeat split].
    destruct (SurahData.number sd =? 0); [repeat split|]. apply Hay.
  - unfold V2.fetchPreviousSurah.
    destruct (selectedSurah r) as [sd|]; [|repeat split].
    destruct (negb (SurahData.number sd =? 0) && (1 <? SurahData.number sd));
      [apply Hay | repeat split].
Qed.

(** ** When the playback library rejects *)

Section Rejections.
Variable E : Env.

Lemma V2_playAudio_resolves (r : AppState) (v : Ayah.t) (w : World) :
  result (V2.playAudio E r v) w = Ok tt /\
  let s' := st (exec (V2.playAudio E r v) w) in
  showSurahs s' = showSurahs (st w) /\ surahs s' = surahs (st w) /\
  selectedSurah s' = selectedSurah (st w) /\ loading s' = loading (st w).
Proof.
  unfold V2.playAudio.
  destruct (sound r) as [s|];
    [destruct (stop_ok E s) eqn:Hstop; [destruct (unload_ok E s) eqn:Hunl|]|];
    destruct (create_ok E (audioUri (Ayah.number v))) eqn:Hc;
    run; rewrite ?Hstop; cbn; rewrite ?Hunl; cbn; rewrite ?Hc; cbn; repeat split.
Qed.

Lemma V2_handleBackPress_resolves (r : AppState) (w : World) :
  result (V2.handleBackPress E r) w = Ok tt /\
  let s' := st (exec (V2.handleBackPress E r) w) in
  showSurahs s' = showSurahs (st w) /\ surahs s' = surahs (st w) /\
  loading s' = loading (st w).
Proof.
  unfold V2.handleBackPress.
  destruct (sound r) as [s|];
    [destruct (stop_ok E s) eqn:Hstop; [destruct (unload_ok E s) eqn:Hunl|]|];
    run; rewrite ?Hstop; cbn; rewrite ?Hunl; cbn; repeat split.
Qed.

Lemma V2_callback_resolves (r : AppState) (v : Ayah.t) (status : AVPlaybackStatus)
    (w : World) :
  result (V2.onPlaybackStatusUpdate E r v status) w = Ok tt.
Proof.
  unfold V2.onPlaybackStatusUpdate.
  destruct (isLoaded status && didJustFinish status); [|reflexivity].
  destruct (selectedSurah r) as [sd|]; [|reflexivity].
  destruct (at_index _ _) as [next|]; [|reflexivity].
  apply V2_playAudio_resolves.
Qed.

Lemma not_in_unloaded (s : Sound) (l : list (Sound * string)) :
  ~ In s (map fst (filter (fun p => negb (Nat.eqb (fst p) s)) l)).
Proof.
  intros Hin. apply in_map_iff in Hin. destruct Hin as ([s' u] & Hs & Hin).
  apply filter_In in Hin. destruct Hin as [_ Hneq]. cbn in Hs, Hneq. subst s'.
  rewrite Nat.eqb_refl in Hneq. discriminate.
Qed.

End Rejections.

(** X6.  The second listing swallows every playback rejection: whatever
    the playback library answers, [playAudio], [handleBackPress] and the
    status callback resolve, and [playAudio] never changes the loaded
    chapter, the chapter list, the loading flag or [showSurahs]. *)
Theorem second_listing_never_rejects (E : Env) (r : AppState) (v : Ayah.t)
    (status : AVPlaybackStatus) (w : World) :
  result (V2.playAudio E r v) w = Ok tt /\
  result (V2.handleBackPress E r) w = Ok tt /\
  result (V2.onPlaybackStatusUpdate E r v status) w = Ok tt /\
  selectedSurah (st (exec (V2.playAudio E r v) w)) = selectedSurah (st w) /\
  surahs (st (exec (V2.playAudio E r v) w)) = surahs (st w) /\
  loading (st (exec (V2.playAudio E r v) w)) = loading (st w) /\
  showSurahs (st (exec (V2.playAudio E r v) w)) = showSurahs (st w).
Proof.
  destruct (V2_playAudio_resolves E r v w) as (Hres & Hshow & Hsur & Hsel & Hload).
  split; [exact Hres|].
  split; [apply V2_handleBackPress_resolves|].
  split; [apply V2_callback_resolves|].
  auto.
Qed.

(** X7.  Second listing, a tap when the new sound cannot be created: the
    old sound has already been stopped and unloaded, the rejection is
    logged, and the state is not written: the cursor stays on the old
    verse and the slot still names the old sound, which is no longer
    loaded.  When already the stop rejects, nothing is unloaded and no
    sound is asked for. *)
Theorem failed_play_leaves_stale_slot (E : Env) (v : Ayah.t) (w : World) (s : Sound) :
  sound (st w) = Some s ->
  (stop_ok E s = true -> unload_ok E s = true ->
   create_ok E (audioUri (Ayah.number v)) = false ->
   let w' := exec (V2.pressAyah E v) w in
   st w' = st w /\ sound (st w') = Some s /\ ~ In s (map fst (loaded w')) /\
   callbacks w' = callbacks w /\
   emitted (V2.pressAyah E v) w =
     [StopAsync s; UnloadAsync s; CreateAsync (audioUri (Ayah.number v)) true;
      ConsoleError "Error playing audio:"]) /\
  (stop_ok E s = false ->
   let w' := exec (V2.pressAyah E v) w in
   st w' = st w /\ loaded w' = loaded w /\
   emitted (V2.pressAyah E v) w = [StopAsync s; ConsoleError "Error playing audio:"]).
Proof.
  intros Hs. split.
  - intros Hstop Hunl Hc w'.
    assert (Hw' : V2.pressAyah E v w =
              (Ok tt, mkWorld (st w)
                        (filter (fun p => negb (Nat.eqb (fst p) s)) (loaded w))
                        (fresh w) (callbacks w)
                        (log w ++ [StopAsync s; UnloadAsync s;
                                   CreateAsync (audioUri (Ayah.number v)) true;
                                   ConsoleError "Error playing audio:"]))).
    { unfold V2.pressAyah, V2.playAudio. rewrite Hs. run.
      rewrite Hstop. cbn. rewrite Hunl. cbn. rewrite Hc. cbn.
      now rewrite <- !app_assoc. }
    subst w'. unfold exec. rewrite Hw'. cbn [snd st loaded callbacks].
    repeat split; [exact Hs | apply not_in_unloaded |].
    apply emitted_app. unfold exec. rewrite Hw'. reflexivity.
  - intros Hstop w'.
    assert (Hw' : V2.pressAyah E v w =
              (Ok tt, mkWorld (st w) (loaded w) (fresh w) (callbacks w)
                        (log w ++ [StopAsync s; ConsoleError "Error playing audio:"]))).
    { unfold V2.pressAyah, V2.playAudio. rewrite Hs. run.
      rewrite Hstop. cbn. now rewrite <- !app_assoc. }
    subst w'. unfold exec. rewrite Hw'. cbn [snd st loaded].
    repeat split. apply emitted_app. unfold exec. rewrite Hw'. reflexivity.
Qed.

Lemma failed_play_leaves_stale_slot_witness :
  sound (st playingFirst) = Some 0%nat /\
  stop_ok noCreateEnv 0 = true /\ unload_ok noCreateEnv 0 = true /\
  create_ok noCreateEnv (audioUri (Ayah.number (ayah 2 2))) = false /\
  selectedAyah (st (exec (V2.pressAyah noCreateEnv (ayah 2 2)) playingFirst))
  = Some (ayah 1 1) /\
  loaded (exec (V2.pressAyah noCreateEnv (ayah 2 2)) playingFirst) = [].
Proof.
  split; [reflexivity|]. split; [reflexivity|]. split; [reflexivity|].
  split; [reflexivity|].
  pose proof (proj1 (failed_play_leaves_stale_slot noCreateEnv (ayah 2 2) playingFirst
                       0%nat eq_refl) eq_refl eq_refl eq_refl) as H.
  cbv zeta in H. destruct H as (Hst & _).
  split; [rewrite Hst; reflexivity | reflexivity].
Defined.

(** X8.  First listing: [playAudio] unloads outside its [try], so it
    rejects exactly when the unload of the captured sound rejects, and then
    it has asked for no new sound and written no state. *)
Theorem first_listing_play_rejects_on_unload (E : Env) (r : AppState) (v : Ayah.t)
    (w : World) :
  (result (V1.playAudio E r v) w = Throw PlaybackError <->
   exists s, sound r = Some s /\ unload_ok E s = false) /\
  (forall s, sound r = Some s -> unload_ok E s = false ->
     V1.playAudio E r v w =
     (Throw PlaybackError,
      mkWorld (st w) (loaded w) (fresh w) (callbacks w) (log w ++ [UnloadAsync s]))).
Proof.
  split.
  - unfold V1.playAudio. destruct (sound r) as [s|].
    + destruct (unload_ok E s) eqn:Hunl.
      * split.
        -- run. rewrite Hunl. cbn.
           destruct (create_ok E (audioUri (Ayah.number v))); cbn;
             [destruct (play_ok E (fresh w)); cbn|]; discriminate.
        -- intros (s' & [= <-] & Hs'). congruence.
      * split; [intros _; eauto|]. intros _. run. rewrite Hunl. reflexivity.
    + split.
      * run. destruct (create_ok E (audioUri (Ayah.number v))); cbn;
          [destruct (play_ok E (fresh w)); cbn|]; discriminate.
      * intros (s' & Hs' & _). discriminate.
  - intros s Hs Hunl. unfold V1.playAudio. rewrite Hs. run. rewrite Hunl. reflexivity.
Qed.

Lemma first_listing_play_rejects_on_unload_witness :
  sound (st playingFirstV1) = Some 0%nat /\
  unload_ok noUnloadEnv 0 = false /\
  result (V1.playAudio noUnloadEnv (st playingFirstV1) (ayah 2 2)) playingFirstV1
  = Throw PlaybackError.
Proof.
  split; [reflexivity|]. split; [reflexivity|].
  apply (proj1 (first_listing_play_rejects_on_unload noUnloadEnv (st playingFirstV1)
                  (ayah 2 2) playingFirstV1)).
  exists 0%nat. split; reflexivity.
Defined.

(** X9.  Leaving while the sound cannot be stopped or unloaded.  Second
    listing: the rejection is logged and swallowed and the state is not
    written, so the chapter, the cursor and the slot stay as they were.
    First listing: [handleBackPress] rejects, and the chapter stays loaded
    as well. *)
Theorem back_press_stuck_when_release_rejects (E : Env) (r : AppState) (w : World)
    (s : Sound) :
  sound r = Some s ->
  stop_ok E s = false \/ unload_ok E s = false ->
  (result (V2.handleBackPress E r) w = Ok tt /\
   st (exec (V2.handleBackPress E r) w) = st w /\
   In (ConsoleError "Error stopping audio:") (emitted (V2.handleBackPress E r) w)) /\
  (result (V1.handleBackPress E r) w = Throw PlaybackError /\
   st (exec (V1.handleBackPress E r) w) = st w).
Proof.
  intros Hs Hrej. unfold result, exec.
  assert (H2 : V2.handleBackPress E r w =
           (Ok tt, mkWorld (st w)
                     (if stop_ok E s then loaded w else loaded w)
                     (fresh w) (callbacks w)
                     (log w ++ (if stop_ok E s then [StopAsync s; UnloadAsync s]
                                else [StopAsync s]) ++
                      [ConsoleError "Error stopping audio:"]))).
  { unfold V2.handleBackPress. rewrite Hs. run.
    destruct (stop_ok E s) eqn:Hstop; cbn.
    - destruct Hrej as [Hrej|Hrej]; [discriminate|]. rewrite Hrej. cbn.
      now rewrite <- !app_assoc.
    - now rewrite <- !app_assoc. }
  assert (H1 : V1.handleBackPress E r w =
           (Throw PlaybackError,
            mkWorld (st w) (loaded w) (fresh w) (callbacks w)
              (log w ++ (if stop_ok E s then [StopAsync s; UnloadAsync s]
                         else [StopAsync s])))).
  { unfold V1.handleBackPress. rewrite Hs. run.
    destruct (stop_ok E s) eqn:Hstop; cbn.
    - destruct Hrej as [Hrej|Hrej]; [discriminate|]. rewrite Hrej. cbn.
      now rewrite <- !app_assoc.
    - reflexivity. }
  split.
  - rewrite H2. cbn [fst snd st]. repeat split.
    erewrite emitted_app; [|unfold exec; rewrite H2; reflexivity].
    apply in_or_app. right. left. reflexivity.
  - rewrite H1. split; reflexivity.
Qed.

Lemma back_press_stuck_when_release_rejects_witness :
  sound (st playingFirst) = Some 0%nat /\
  (stop_ok noStopEnv 0 = false \/ unload_ok noStopEnv 0 = false) /\
  selectedSurah (st (exec (V2.handleBackPress noStopEnv (st playingFirst)) playingFirst))
  = Some alFaatiha.
Proof.
  split; [reflexivity|]. split; [left; reflexivity|].
  pose proof (back_press_stuck_when_release_rejects noStopEnv (st playingFirst)
                playingFirst 0%nat eq_refl (or_introl eq_refl)) as H.
  destruct H as ((_ & Hst & _) & _). rewrite Hst. reflexivity.
Defined.

(** ** The whole auto-advance chain *)

Lemma times_S (k : nat) (m : M unit) (w : World) :
  times (S k) m w = exec m (times k m w).
Proof. reflexivity. Qed.

Section Chain.
Variable E : Env.
Variable r : AppState.
Variable sd : SurahData.t.
Hypothesis Hsd : selectedSurah r = Some sd.
Hypothesis Hnd : NoDup (map Ayah.number (SurahData.ayahs sd)).
Hypothesis Hctl : controls_ok E r.
Hypothesis Hcreate :
  forall a, In a (SurahData.ayahs sd) -> create_ok E (audioUri (Ayah.number a)) = true.

Lemma chain_step (i : nat) (v : Ayah.t) (s : Sound) (w : World) :
  playing_at r sd i v s w ->
  match nth_error (SurahData.ayahs sd) (S i) with
  | Some next =>
      playing_at r sd (S i) next (S s) (exec (finishCurrent E) w) /\
      loaded (exec (finishCurrent E) w) =
        unload_from r (loaded w) ++ [(S s, audioUri (Ayah.number next))]
  | None => exec (finishCurrent E) w = w
  end.
Proof.
  intros (Hi & Hslot & Hcb & Hcur & Hfresh).
  unfold exec, finishCurrent, V2.statusUpdate. rewrite Hslot, Hcb.
  rewrite (V2_callback_next E r sd i v Hsd Hnd Hi).
  destruct (nth_error (SurahData.ayahs sd) (S i)) as [next|] eqn:Hnext; [|reflexivity].
  rewrite (V2_playAudio_ok E r next w Hctl
             (Hcreate next (nth_error_In _ _ Hnext))).
  unfold playing_at. cbn [snd st loaded callbacks fresh sound selectedAyah lookup_callback].
  rewrite Hfresh, Nat.eqb_refl. repeat split. exact Hnext.
Qed.

Lemma chain_reaches (i : nat) (v : Ayah.t) (s : Sound) (w : World) (j : nat) :
  playing_at r sd i v s w ->
  (i + j < List.length (SurahData.ayahs sd))%nat ->
  exists vj, playing_at r sd (i + j) vj (s + j) (times j (finishCurrent E) w).
Proof.
  intros Hplay. induction j as [|j IH]; intros Hlt.
  - exists v. now rewrite !Nat.add_0_r.
  - destruct IH as (vj & Hvj); [lia|].
    pose proof (chain_step _ _ _ _ Hvj) as Hstep.
    destruct (nth_error (SurahData.ayahs sd) (S (i + j))) as [next|] eqn:Hnext.
    + exists next. rewrite !Nat.add_succ_r, times_S. apply Hstep.
    + apply nth_error_None in Hnext. lia.
Qed.

Lemma chain_settles (i : nat) (v : Ayah.t) (s : Sound) (w : World) (j : nat) :
  playing_at r sd i v s w ->
  S i = List.length (SurahData.ayahs sd) ->
  times j (finishCurrent E) w = w.
Proof.
  intros Hplay Hlast.
  pose proof (chain_step _ _ _ _ Hplay) as Hstep.
  rewrite (nth_error_last_none _ _ Hlast) in Hstep.
  induction j as [|j IH]; [reflexivity|].
  rewrite times_S, IH. exact Hstep.
Qed.

Lemma chain_loaded (i : nat) (v : Ayah.t) (s : Sound) (w : World) (j : nat) :
  sound r = None ->
  playing_at r sd i v s w ->
  (i + j < List.length (SurahData.ayahs sd))%nat ->
  List.length (loaded (times j (finishCurrent E) w)) = (List.length (loaded w) + j)%nat.
Proof.
  intros Hnone Hplay. induction j as [|j IH]; intros Hlt.
  - cbn. lia.
  - destruct (chain_reaches i v s w j Hplay) as (vj & Hvj); [lia|].
    pose proof (chain_step _ _ _ _ Hvj) as Hstep.
    destruct (nth_error (SurahData.ayahs sd) (S (i + j))) as [next|] eqn:Hnext.
    + destruct Hstep as [_ Hl]. rewrite times_S, Hl. unfold unload_from. rewrite Hnone, length_app, IH by lia.
      cbn. lia.
    + apply nth_error_None in Hnext. lia.
Qed.

Lemma tap_starts_chain (i : nat) (v : Ayah.t) (w : World) :
  r = st w ->
  nth_error (SurahData.ayahs sd) i = Some v ->
  playing_at r sd i v (fresh w) (exec (V2.pressAyah E v) w) /\
  loaded (exec (V2.pressAyah E v) w) =
    unload_from r (loaded w) ++ [(fresh w, audioUri (Ayah.number v))].
Proof.
  intros Hr Hi. unfold exec, V2.pressAyah. rewrite <- Hr.
  rewrite (V2_playAudio_ok E r v w Hctl (Hcreate v (nth_error_In _ _ Hi))).
  unfold playing_at. cbn [snd st loaded callbacks fresh sound selectedAyah lookup_callback].
  rewrite Nat.eqb_refl. repeat split. exact Hi.
Qed.

End Chain.

Lemma times_add (a b : nat) (m : M unit) (w : World) :
  times (a + b) m w = times a m (times b m w).
Proof. unfold times. apply Nat.iter_add. Qed.

(** X10.  Second listing, the whole chain.  A verse at position [i] is
    tapped and every sound then plays to its end (the playback calls
    resolving, global numbers distinct).  After [j] finished sounds the
    cursor is the verse at position [i + j], played by the [j]-th sound
    created since the tap; once the last verse has finished nothing changes
    any more, so the chain stops at the end of the chapter.  When the slot
    was empty at the tap, none of the finished sounds is unloaded: [j + 1]
    more players are loaded. *)
Theorem auto_advance_plays_rest_of_chapter (E : Env) (w : World) (sd : SurahData.t)
    (i : nat) (v : Ayah.t) :
  selectedSurah (st w) = Some sd ->
  NoDup (map Ayah.number (SurahData.ayahs sd)) ->
  controls_ok E (st w) ->
  (forall a, In a (SurahData.ayahs sd) -> create_ok E (audioUri (Ayah.number a)) = true) ->
  nth_error (SurahData.ayahs sd) i = Some v ->
  let w0 := exec (V2.pressAyah E v) w in
  let rest := (List.length (SurahData.ayahs sd) - 1 - i)%nat in
  (forall j, (j <= rest)%nat ->
     exists vj, nth_error (SurahData.ayahs sd) (i + j) = Some vj /\
                selectedAyah (st (times j (finishCurrent E) w0)) = Some vj /\
                sound (st (times j (finishCurrent E) w0)) = Some (fresh w + j)%nat) /\
  (forall j, (rest <= j)%nat ->
     times j (finishCurrent E) w0 = times rest (finishCurrent E) w0) /\
  (sound (st w) = None ->
   forall j, (j <= rest)%nat ->
     List.length (loaded (times j (finishCurrent E) w0))
     = (List.length (loaded w) + j + 1)%nat).
Proof.
  intros Hsd Hnd Hctl Hcreate Hi w0 rest.
  assert (Hlen : (i < List.length (SurahData.ayahs sd))%nat)
    by (apply nth_error_Some; congruence).
  destruct (tap_starts_chain E (st w) sd Hctl Hcreate i v w eq_refl Hi) as [Hplay Hl0].
  fold w0 in Hplay, Hl0.
  split; [|split].
  - intros j Hj.
    destruct (chain_reaches E (st w) sd Hsd Hnd Hctl Hcreate i v _ w0 j Hplay)
      as (vj & Hnth & Hslot & _ & Hcur & _); [subst rest; lia|].
    exists vj. auto.
  - intros j Hj.
    destruct (chain_reaches E (st w) sd Hsd Hnd Hctl Hcreate i v _ w0 rest Hplay)
      as (vl & Hlast); [subst rest; lia|].
    replace j with ((j - rest) + rest)%nat by lia. rewrite times_add.
    apply (chain_settles E (st w) sd Hsd Hnd Hctl Hcreate _ _ _ _ _ Hlast).
    subst rest. lia.
  - intros Hnone j Hj.
    rewrite (chain_loaded E (st w) sd Hsd Hnd Hctl Hcreate i v _ w0 j Hnone Hplay)
      by (subst rest; lia).
    rewrite Hl0. unfold unload_from. rewrite Hnone, length_app. cbn. lia.
Qed.

Lemma auto_advance_plays_rest_of_chapter_witness :
  selectedSurah (st (reading alFaatiha)) = Some alFaatiha /\
  controls_ok sampleEnv (st (reading alFaatiha)) /\
  nth_error (SurahData.ayahs alFaatiha) 4 = Some (ayah 5 5) /\
  times 9 (finishCurrent sampleEnv) (exec (V2.pressAyah sampleEnv (ayah 5 5)) (reading alFaatiha))
  = times 2 (finishCurrent sampleEnv) (exec (V2.pressAyah sampleEnv (ayah 5 5)) (reading alFaatiha)).
Proof.
  assert (Hnd : NoDup (map Ayah.number (SurahData.ayahs alFaatiha))).
  { cbn. repeat (constructor; [cbn; intuition discriminate|]). constructor. }
  assert (Hctl : controls_ok sampleEnv (st (reading alFaatiha))).
  { intros s Hs. discriminate Hs. }
  split; [reflexivity|]. split; [exact Hctl|]. split; [reflexivity|].
  apply (proj1 (proj2 (auto_advance_plays_rest_of_chapter sampleEnv (reading alFaatiha)
                         alFaatiha 4 (ayah 5 5) eq_refl Hnd Hctl
                         (fun a _ => eq_refl) eq_refl)) 9%nat).
  cbn. lia.
Defined.

(** ** What the screen shows *)

Section Rows.

Lemma filter_number_none (n : Z) (l : list Ayah.t) :
  ~ In n (map Ayah.number l) -> filter (fun a => n =? Ayah.number a) l = [].
Proof.
  induction l as [|a l IH]; cbn; intros Hout; [reflexivity|].
  destruct (Z.eqb_spec n (Ayah.number a)) as [Heq|_]; [exfalso; auto|].
  apply IH. auto.
Qed.

Lemma filter_number_unique (v : Ayah.t) (l : list Ayah.t) :
  NoDup (map Ayah.number l) -> In v l ->
  filter (fun a => Ayah.number v =? Ayah.number a) l = [v].
Proof.
  induction l as [|a l IH]; cbn; intros Hnd Hin; [contradiction|].
  inversion Hnd as [|n ns Hout Hnd']; subst.
  destruct Hin as [->|Hin].
  - rewrite Z.eqb_refl, (filter_number_none _ _ Hout). reflexivity.
  - destruct (Z.eqb_spec (Ayah.number v) (Ayah.number a)) as [Heq|_].
    + exfalso. apply Hout. rewrite <- Heq. now apply in_map.
    + now apply IH.
Qed.

Lemma rows_ayahs (cursor : option Ayah.t) (sd : SurahData.t) :
  map rowAyah (ayahRows cursor sd) = SurahData.ayahs sd.
Proof.
  unfold ayahRows. rewrite map_map. cbn. apply map_id.
Qed.

Lemma rows_highlighted (cursor : option Ayah.t) (sd : SurahData.t) :
  map rowAyah (filter highlighted (ayahRows cursor sd))
  = filter (isHighlighted cursor) (SurahData.ayahs sd).
Proof.
  unfold ayahRows. induction (SurahData.ayahs sd) as [|a l IH]; cbn; [reflexivity|].
  destruct (isHighlighted cursor a); cbn; now rewrite IH.
Qed.

Lemma rows_keys_nodup (cursor : option Ayah.t) (sd : SurahData.t) :
  NoDup (map Ayah.number (SurahData.ayahs sd)) ->
  NoDup (map rowKey (ayahRows cursor sd)).
Proof.
  unfold ayahRows. rewrite map_map. cbn.
  induction (SurahData.ayahs sd) as [|a l IH]; cbn; intros Hnd; [constructor|].
  inversion Hnd as [|n ns Hout Hnd']; subst. constructor; [|now apply IH].
  intros Hin. apply in_map_iff in Hin. destruct Hin as (b & Hkey & Hb).
  apply toString_inj in Hkey. apply Hout. rewrite <- Hkey. now apply in_map.
Qed.

End Rows.

(** X11.  Second listing: after a verse of the loaded chapter is tapped
    (playback calls resolving, global numbers distinct, no lookup in
    progress), the verse list shows the chapter's verses in order, with
    distinct row keys, and exactly one highlighted row: the tapped verse. *)
Theorem tapped_verse_is_the_highlighted_row (E : Env) (w : World) (sd : SurahData.t)
    (v : Ayah.t) :
  selectedSurah (st w) = Some sd ->
  loading (st w) = false ->
  NoDup (map Ayah.number (SurahData.ayahs sd)) ->
  In v (SurahData.ayahs sd) ->
  controls_ok E (st w) ->
  create_ok E (audioUri (Ayah.number v)) = true ->
  exists rows,
    ayahList (V2UI.QuranAppContent (st (exec (V2.pressAyah E v) w))) = Some rows /\
    map rowAyah rows = SurahData.ayahs sd /\
    map rowAyah (filter highlighted rows) = [v] /\
    NoDup (map rowKey rows).
Proof.
  intros Hsd Hload Hnd Hin Hctl Hcreate.
  exists (ayahRows (Some v) sd).
  unfold exec, V2.pressAyah. rewrite (V2_playAudio_ok E (st w) v w Hctl Hcreate).
  unfold V2UI.QuranAppContent. cbn. rewrite Hsd, Hload. cbn.
  repeat split.
  - apply rows_ayahs.
  - rewrite rows_highlighted. cbn. now apply filter_number_unique.
  - now apply rows_keys_nodup.
Qed.

Lemma tapped_verse_is_the_highlighted_row_witness :
  selectedSurah (st (reading alBaqara)) = Some alBaqara /\
  loading (st (reading alBaqara)) = false /\
  In (ayah 9 2) (SurahData.ayahs alBaqara) /\
  controls_ok sampleEnv (st (reading alBaqara)) /\
  create_ok sampleEnv (audioUri (Ayah.number (ayah 9 2))) = true /\
  exists rows,
    ayahList (V2UI.QuranAppContent
                (st (exec (V2.pressAyah sampleEnv (ayah 9 2)) (reading alBaqara))))
    = Some rows /\
    map rowAyah rows = SurahData.ayahs alBaqara /\
    map rowAyah (filter highlighted rows) = [ayah 9 2] /\
    NoDup (map rowKey rows).
Proof.
  assert (Hnd : NoDup (map Ayah.number (SurahData.ayahs alBaqara))).
  { cbn. repeat (constructor; [cbn; intuition discriminate|]). constructor. }
  assert (Hctl : controls_ok sampleEnv (st (reading alBaqara)))
    by (intros s Hs; discriminate Hs).
  assert (Hin : In (ayah 9 2) (SurahData.ayahs alBaqara)) by (cbn; auto).
  split; [reflexivity|]. split; [reflexivity|]. split; [exact Hin|].
  split; [exact Hctl|]. split; [reflexivity|].
  apply (tapped_verse_is_the_highlighted_row sampleEnv (reading alBaqara) alBaqara
           (ayah 9 2) eq_refl eq_refl Hnd Hin Hctl eq_refl).
Defined.

(** X12.  Second listing: while a lookup is in progress the screen shows
    the activity indicator and neither list; otherwise it shows exactly one
    of the [Read Quran] button, the chapter list and the verse list.  The
    first listing keeps showing the verse list during a lookup. *)
Theorem screen_shows_one_view (s : AppState) :
  let scr := V2UI.QuranAppContent s in
  (loading s = true ->
     activityIndicator scr = true /\ surahList scr = None /\ ayahList scr = None) /\
  (loading s = false ->
     activityIndicator scr = false /\
     ((homeButton scr = true /\ surahList scr = None /\ ayahList scr = None) \/
      (homeButton scr = false /\ surahList scr = Some (surahs s) /\ ayahList scr = None) \/
      (homeButton scr = false /\ surahList scr = None /\
       exists sd, selectedSurah s = Some sd /\
                  ayahList scr = Some (ayahRows (selectedAyah s) sd)))) /\
  (forall sd, selectedSurah s = Some sd ->
     ayahList (V1UI.QuranAppContent s) = Some (ayahRows (selectedAyah s) sd)).
Proof.
  unfold V2UI.QuranAppContent, V1UI.QuranAppContent. cbn. split; [|split].
  - intros ->. destruct (selectedSurah s); rewrite ?andb_false_r; auto.
  - intros ->. split; [reflexivity|].
    destruct (selectedSurah s) as [sd|]; cbn.
    + right. right. repeat split. exists sd. auto.
    + destruct (showSurahs s); cbn; auto.
  - intros sd ->. reflexivity.
Qed.

Lemma screen_shows_one_view_witness :
  loading (st (reading alBaqara)) = false /\
  ayahList (V2UI.QuranAppContent (st (reading alBaqara))) = Some (ayahRows None alBaqara) /\
  surahList (V2UI.QuranAppContent (st (reading alBaqara))) = None.
Proof.
  split; [reflexivity|].
  destruct (proj1 (proj2 (screen_shows_one_view (st (reading alBaqara)))) eq_refl)
    as [_ [(_ & _ & H) | [(_ & H & _) | (_ & Hs & sd & Hsd & Hrows)]]];
    [discriminate H | discriminate H |].
  injection Hsd as <-. split; assumption.
Defined.

(** X13.  Second listing, opening a chapter and leaving it.  When the API
    answers the tapped chapter row with code 200, the screen shows the
    verses of the answer and no chapter list; Back (the stop and unload
    resolving) then shows the chapter list that was held, with the cursor
    and the slot cleared. *)
Theorem open_chapter_then_back (E : Env) (item : Surah.t) (d : SurahData.t) (w : World) :
  showSurahs (st w) = true ->
  fetch_ayahs E (ayahsUrl (Surah.number item)) = JsonObject 200 d ->
  let w1 := exec (V2UI.pressSurah E item) w in
  let w2 := exec (V2.pressBack E) w1 in
  V2UI.QuranAppContent (st w1)
    = mkScreen false false None (Some (ayahRows (selectedAyah (st w)) d)) /\
  (controls_ok E (st w) ->
   V2UI.QuranAppContent (st w2) = mkScreen false false (Some (surahs (st w))) None /\
   selectedAyah (st w2) = None /\ sound (st w2) = None).
Proof.
  intros Hshow Hresp w1 w2.
  assert (Hw1 : w1 = snd (V2.fetchAyahs E (Surah.number item) w)) by reflexivity.
  rewrite (fetchAyahs_ok E _ d w Hresp) in Hw1. cbn [snd] in Hw1.
  split.
  - rewrite Hw1. reflexivity.
  - intros Hctl.
    assert (Hctl1 : controls_ok E (st w1)) by (rewrite Hw1; exact Hctl).
    subst w2. unfold exec, V2.pressBack.
    rewrite (V2_handleBackPress_ok E (st w1) w1 Hctl1). rewrite Hw1.
    unfold V2UI.QuranAppContent. cbn. rewrite Hshow.
    destruct (sound (st w)); auto.
Qed.

Lemma open_chapter_then_back_witness :
  showSurahs (st (reading alFaatiha)) = true /\
  fetch_ayahs sampleEnv (ayahsUrl (Surah.number (Surah.mk 2 "" "Al-Baqara" "The Cow" 286 "Medinan")))
  = JsonObject 200 alBaqara /\
  V2UI.QuranAppContent
    (st (exec (V2UI.pressSurah sampleEnv (Surah.mk 2 "" "Al-Baqara" "The Cow" 286 "Medinan"))
              (reading alFaatiha)))
  = mkScreen false false None (Some (ayahRows None alBaqara)).
Proof.
  split; [reflexivity|]. split; [reflexivity|].
  apply (proj1 (open_chapter_then_back sampleEnv
                  (Surah.mk 2 "" "Al-Baqara" "The Cow" 286 "Medinan")
                  alBaqara (reading alFaatiha) eq_refl eq_refl)).
Defined.

(** X14.  A lookup repeated against the same answer changes nothing the
    second time: for [fetchSurahs] and [fetchAyahs] of both listings the
    state after two runs is the state after one. *)
Theorem lookups_are_idempotent (E : Env) (n : Z) (w : World) :
  st (exec (V2.fetchSurahs E) (exec (V2.fetchSurahs E) w)) = st (exec (V2.fetchSurahs E) w) /\
  st (exec (V2.fetchAyahs E n) (exec (V2.fetchAyahs E n) w)) = st (exec (V2.fetchAyahs E n) w) /\
  st (exec (V1.fetchSurahs E) (exec (V1.fetchSurahs E) w)) = st (exec (V1.fetchSurahs E) w) /\
  st (exec (V1.fetchAyahs E n) (exec (V1.fetchAyahs E n) w)) = st (exec (V1.fetchAyahs E n) w).
Proof.
  unfold exec. split; [|split; [|split]].
  - rewrite !V2_fetchSurahs_run.
    destruct (fetch_surahs E surahsUrl) as [| | |code data];
      try destruct (code =? 200); reflexivity.
  - rewrite !V2_fetchAyahs_run.
    destruct (fetch_ayahs E (ayahsUrl n)) as [| | |code data];
      try destruct (code =? 200); reflexivity.
  - rewrite !V1_fetchSurahs_run.
    destruct (fetch_surahs E surahsUrl) as [| | |code data];
      try destruct (code =? 200); reflexivity.
  - rewrite !V1_fetchAyahs_run.
    destruct (fetch_ayahs E (ayahsUrl n)) as [| | |code data];
      try destruct (code =? 200); reflexivity.
Qed.

(** X15.  A status report changes the world only when it is the finished
    signal, a callback is registered for the sound and its render held a
    chapter: in both listings a report that is not finished, a report for a
    sound without callback, and a report to a callback created without a
    chapter leave the world as it was. *)
Theorem status_reports_are_inert (E : Env) (s : Sound) (status : AVPlaybackStatus)
    (w : World) :
  (didJustFinish status = false \/
   lookup_callback s (callbacks w) = None \/
   (exists r v, lookup_callback s (callbacks w) = Some (r, v) /\ selectedSurah r = None)) ->
  V2.statusUpdate E s status w = (Ok tt, w) /\
  V1.statusUpdate E s status w = (Ok tt, w).
Proof.
  unfold V2.statusUpdate, V1.statusUpdate,
    V2.onPlaybackStatusUpdate, V1.onPlaybackStatusUpdate.
  intros [Hnot | [Hnone | (r & v & Hcb & Hsd)]].
  - rewrite Hnot, andb_false_r. destruct (lookup_callback s (callbacks w)) as [[r v]|]; auto.
  - rewrite Hnone. auto.
  - rewrite Hcb, Hsd.
    destruct (isLoaded status && didJustFinish status), (didJustFinish status); auto.
Qed.

Lemma status_reports_are_inert_witness :
  didJustFinish (StatusSuccess false) = false /\
  V2.statusUpdate sampleEnv 0 (StatusSuccess false) playingFirst = (Ok tt, playingFirst).
Proof.
  split; [reflexivity|].
  apply (status_reports_are_inert sampleEnv 0%nat (StatusSuccess false) playingFirst).
  left. reflexivity.
Defined.

(** X16.  First listing, what the kept cursor shows.  A verse is the cursor
    and its sound is in the slot; Back is pressed and a chapter holding that
    verse is opened (the stop and unload resolving, the API answering with
    code 200).  The verse list then highlights that verse although the slot
    is empty.  In the second listing the same session highlights no row. *)
Theorem reopened_chapter_highlights_stale_verse (E : Env) (n : Z) (d : SurahData.t)
    (v : Ayah.t) (w : World) :
  selectedAyah (st w) = Some v ->
  controls_ok E (st w) ->
  fetch_ayahs E (ayahsUrl n) = JsonObject 200 d ->
  In v (SurahData.ayahs d) ->
  let w1 := exec (V1.fetchAyahs E n) (exec (V1.pressBack E) w) in
  let w2 := exec (V2.fetchAyahs E n) (exec (V2.pressBack E) w) in
  (sound (st w1) = None /\
   exists rows, ayahList (V1UI.QuranAppContent (st w1)) = Some rows /\
                In (mkRow (toString (Ayah.number v)) v true) rows) /\
  (sound (st w2) = None /\
   exists rows, ayahList (V2UI.QuranAppContent (st w2)) = Some rows /\
                filter highlighted rows = []).
Proof.
  intros Hcur Hctl Hresp Hin w1 w2. split.
  - assert (Hback : exists l lg,
               V1.pressBack E w =
               (Ok tt, mkWorld (mkState (showSurahs (st w)) (surahs (st w)) None
                                  (loading (st w)) (Some v) None)
                         l (fresh w) (callbacks w) lg)).
    { unfold V1.pressBack, V1.handleBackPress.
      destruct (sound (st w)) as [s|] eqn:Hs.
      - destruct (Hctl s Hs) as [Hstop Hunl]. run. rewrite Hstop. cbn.
        rewrite Hunl. cbn. rewrite Hcur. eauto.
      - run. rewrite Hcur, Hs. eauto. }
    destruct Hback as (l & lg & Hback).
    subst w1. unfold exec. rewrite Hback. cbn [snd].
    rewrite V1_fetchAyahs_run, Hresp. cbn. split; [reflexivity|].
    eexists. split; [reflexivity|].
    unfold ayahRows. apply in_map_iff. exists v. cbn.
    rewrite Z.eqb_refl. auto.
  - subst w2. unfold exec, V2.pressBack.
    rewrite (V2_handleBackPress_ok E (st w) w Hctl). cbn [snd].
    rewrite V2_fetchAyahs_run, Hresp. cbn. split; [destruct (sound (st w)); reflexivity|].
    eexists. split; [reflexivity|].
    unfold ayahRows. clear Hin.
    induction (SurahData.ayahs d) as [|a l' IH]; cbn; auto.
Qed.

Lemma reopened_chapter_highlights_stale_verse_witness :
  selectedAyah (st playingFirstV1) = Some (ayah 1 1) /\
  controls_ok sampleEnv (st playingFirstV1) /\
  fetch_ayahs sampleEnv (ayahsUrl 1) = JsonObject 200 alFaatiha /\
  In (ayah 1 1) (SurahData.ayahs alFaatiha) /\
  sound (st (exec (V1.fetchAyahs sampleEnv 1) (exec (V1.pressBack sampleEnv) playingFirstV1)))
  = None.
Proof.
  assert (Hctl : controls_ok sampleEnv (st playingFirstV1)) by (intros s _; split; reflexivity).
  assert (Hin : In (ayah 1 1) (SurahData.ayahs alFaatiha)) by (cbn; auto).
  split; [reflexivity|]. split; [exact Hctl|]. split; [reflexivity|]. split; [exact Hin|].
  apply (proj1 (reopened_chapter_highlights_stale_verse sampleEnv 1 alFaatiha (ayah 1 1)
                  playingFirstV1 eq_refl Hctl eq_refl Hin)).
Defined.

(** ** An invariant of every session *)

Section Sessions.
Variable E : Env.

Lemma V2_playAudio_effect (r : AppState) (v : Ayah.t) (w : World) :
  let w' := exec (V2.playAudio E r v) w in
  (st w' = st w /\ fresh w' = fresh w) \/
  (selectedAyah (st w') = Some v /\ sound (st w') = Some (fresh w) /\
   fresh w' = S (fresh w)).
Proof.
  unfold V2.playAudio.
  destruct (sound r) as [s|];
    [destruct (stop_ok E s) eqn:Hstop; [destruct (unload_ok E s) eqn:Hunl|]|];
    destruct (create_ok E (audioUri (Ayah.number v))) eqn:Hc;
    run; rewrite ?Hstop; cbn; rewrite ?Hunl; cbn; rewrite ?Hc; cbn; auto.
Qed.

Lemma V2_pressBack_effect (w : World) :
  let w' := exec (V2.pressBack E) w in
  fresh w' = fresh w /\
  (st w' = st w \/ (selectedAyah (st w') = None /\ sound (st w') = None)).
Proof.
  cbv zeta. unfold exec, V2.pressBack, V2.handleBackPress. cbv beta.
  destruct (sound (st w)) as [s|] eqn:Hs.
  - destruct (stop_ok E s) eqn:Hstop; [destruct (unload_ok E s) eqn:Hunl|];
      run; rewrite Hstop; cbn; rewrite ?Hunl; cbn; auto.
  - run. rewrite Hs. auto.
Qed.

Lemma playAudio_keeps_invariant (r : AppState) (v : Ayah.t) (w : World) :
  cursor_follows_slot w -> cursor_follows_slot (exec (V2.playAudio E r v) w).
Proof.
  intros [Hiff Hlatest].
  destruct (V2_playAudio_effect r v w) as [[Hst Hf] | (Hc & Hs & Hf)];
    unfold cursor_follows_slot.
  - rewrite Hst, Hf. auto.
  - rewrite Hc, Hs, Hf. split; [split; discriminate|]. now intros s [= <-].
Qed.

Lemma keeps_playback_invariant (m : M unit) (w : World) :
  keeps_playback m w -> fresh (exec m w) = fresh w ->
  cursor_follows_slot w -> cursor_follows_slot (exec m w).
Proof.
  intros (Hc & Hs & _) Hf [Hiff Hlatest]. unfold cursor_follows_slot.
  rewrite Hc, Hs, Hf. auto.
Qed.

Lemma fetchAyahs_fresh (n : Z) (w : World) :
  keeps_playback (V2.fetchAyahs E n) w /\ fresh (exec (V2.fetchAyahs E n) w) = fresh w.
Proof.
  unfold keeps_playback, exec. rewrite V2_fetchAyahs_run. repeat split.
Qed.

Lemma dispatch_keeps_invariant (i : Input) (w : World) :
  cursor_follows_slot w -> cursor_follows_slot (exec (dispatch E i) w).
Proof.
  intros Hinv. destruct i as [|item|item| | | |s status]; cbn [dispatch].
  - apply keeps_playback_invariant; [| |exact Hinv];
      unfold keeps_playback, exec; rewrite V2_fetchSurahs_run; repeat split.
  - apply keeps_playback_invariant; [| |exact Hinv]; apply fetchAyahs_fresh.
  - apply playAudio_keeps_invariant, Hinv.
  - destruct Hinv as [Hiff Hlatest].
    destruct (V2_pressBack_effect w) as (Hf & [Hst | [Hc Hs]]);
      unfold cursor_follows_slot.
    + rewrite Hst, Hf. auto.
    + rewrite Hc, Hs. split; [tauto | discriminate].
  - change (exec (V2.onEndReached E) w) with (exec (V2.fetchNextSurah E (st w)) w).
    unfold V2.fetchNextSurah.
    destruct (selectedSurah (st w)) as [sd|]; [|exact Hinv].
    destruct (SurahData.number sd =? 0); [exact Hinv|].
    apply keeps_playback_invariant; [| |exact Hinv]; apply fetchAyahs_fresh.
  - change (exec (V2.onRefresh E) w) with (exec (V2.fetchPreviousSurah E (st w)) w).
    unfold V2.fetchPreviousSurah.
    destruct (selectedSurah (st w)) as [sd|]; [|exact Hinv].
    destruct (negb (SurahData.number sd =? 0) && (1 <? SurahData.number sd));
      [|exact Hinv].
    apply keeps_playback_invariant; [| |exact Hinv]; apply fetchAyahs_fresh.
  - unfold exec, V2.statusUpdate.
    destruct (lookup_callback s (callbacks w)) as [[r v]|]; [|exact Hinv].
    change (cursor_follows_slot (exec (V2.onPlaybackStatusUpdate E r v status) w)).
    unfold V2.onPlaybackStatusUpdate.
    destruct (isLoaded status && didJustFinish status); [|exact Hinv].
    destruct (selectedSurah r) as [sd|]; [|exact Hinv].
    destruct (at_index _ _) as [next|]; [|exact Hinv].
    apply playAudio_keeps_invariant, Hinv.
Qed.

End Sessions.

(** X17.  Second listing, every session: whatever the user does (chapter
    and verse taps, Back, scrolling to the end, pulling to refresh), whatever
    the playback library reports and whatever it and the API answer, a
    verse is the cursor exactly when a sound is in the slot, and the sound
    in the slot is the most recently created one. *)
Theorem sessions_keep_cursor_with_slot (E : Env) (inputs : list Input) (w : World) :
  cursor_follows_slot w ->
  cursor_follows_slot (session E inputs w).
Proof.
  revert w. induction inputs as [|i inputs IH]; intros w Hinv; [exact Hinv|].
  cbn [session fold_left]. apply IH, dispatch_keeps_invariant, Hinv.
Qed.

Lemma sessions_keep_cursor_with_slot_witness :
  cursor_follows_slot initialWorld /\
  cursor_follows_slot
    (session sampleEnv
       [LoadSurahs; TapSurah (Surah.mk 1 "" "Al-Faatiha" "The Opening" 7 "Meccan");
        TapAyah (ayah 6 6); StatusReport 0 finishedStatus; EndReached; TapBack]
       initialWorld).
Proof.
  assert (H0 : cursor_follows_slot initialWorld).
  { split; [split; reflexivity | discriminate]. }
  split; [exact H0|].
  apply (sessions_keep_cursor_with_slot sampleEnv _ initialWorld H0).
Defined.
